(** * The command router of the WabiSaby plugin SDK

    A shallow embedding of [router.go] and [command.go] (package [sdk]),
    together with the parts of Go's [reflect], [strconv] and [encoding/json]
    packages the router relies on, and the properties the specification states about
    registration, argument binding and routing. *)

From Stdlib Require Import ZArith QArith Qround Qabs String Ascii List Bool Lia DecimalString.
From stdpp Require Import base option list gmap strings fin_maps.

#[local] Open Scope string_scope.
#[local] Set Warnings "-register-all".

(** ** Types, as package [reflect] shows them *)

Module Reflect.

Inductive Kind : Type :=
| KBool | KInt | KFloat64 | KString | KInterface | KMap | KPointer
| KSlice | KChan | KFunc | KStruct.

#[global] Instance Kind_eq_dec : EqDecision Kind.
Proof. solve_decision. Defined.

(** The types of the model, a fragment of Go's.  Struct fields are the
    fields [encoding/json] sees, each with its JSON key (the [json] tag, or
    the Go field name).  A defined type [TNamed] records its package path,
    its declared name, its underlying type and whether its method set holds
    [Error() string], declared on the value receiver ([valueErr]) or on the
    pointer receiver ([ptrErr]).  Function types are not variadic. *)
Inductive rtype : Type :=
| TBool | TInt | TFloat64 | TString
| TInterface                       (* interface{} *)
| TError                           (* the predeclared interface error *)
| TMapSI                           (* map[string]interface{} *)
| TSliceI                          (* []interface{} *)
| TChan (elem : rtype)
| TPtr (elem : rtype)
| TStruct (fields : list (string * rtype))
| TFunc (ins outs : list rtype)
| TNamed (pkg name : string) (under : rtype) (valueErr ptrErr : bool).

(** Induction that also covers the types nested in field and parameter
    lists. *)
Section rtype_induction.
Variable P : rtype -> Prop.
Hypothesis HBool : P TBool.
Hypothesis HInt : P TInt.
Hypothesis HFloat64 : P TFloat64.
Hypothesis HString : P TString.
Hypothesis HInterface : P TInterface.
Hypothesis HError : P TError.
Hypothesis HMapSI : P TMapSI.
Hypothesis HSliceI : P TSliceI.
Hypothesis HChan : forall e, P e -> P (TChan e).
Hypothesis HPtr : forall e, P e -> P (TPtr e).
Hypothesis HStruct : forall fs, Forall (fun f => P (snd f)) fs -> P (TStruct fs).
Hypothesis HFunc : forall ins outs, Forall P ins -> Forall P outs -> P (TFunc ins outs).
Hypothesis HNamed : forall pkg name u ev ep, P u -> P (TNamed pkg name u ev ep).

Fixpoint rtype_nested_ind (t : rtype) : P t :=
  match t with
  | TBool => HBool | TInt => HInt | TFloat64 => HFloat64 | TString => HString
  | TInterface => HInterface | TError => HError
  | TMapSI => HMapSI | TSliceI => HSliceI
  | TChan e => HChan e (rtype_nested_ind e)
  | TPtr e => HPtr e (rtype_nested_ind e)
  | TStruct fs =>
      HStruct fs
        ((fix go (l : list (string * rtype)) : Forall (fun f => P (snd f)) l :=
            match l with
            | [] => List.Forall_nil _
            | f :: l' => List.Forall_cons _ f l' (rtype_nested_ind (snd f)) (go l')
            end) fs)
  | TFunc ins outs =>
      let go := fix go (l : list rtype) : Forall P l :=
        match l with
        | [] => List.Forall_nil _
        | x :: l' => List.Forall_cons _ x l' (rtype_nested_ind x) (go l')
        end in
      HFunc ins outs (go ins) (go outs)
  | TNamed pkg name u ev ep => HNamed pkg name u ev ep (rtype_nested_ind u)
  end.
End rtype_induction.

(** Type identity. *)
Fixpoint rtype_eqb (a b : rtype) {struct a} : bool :=
  match a, b with
  | TBool, TBool | TInt, TInt | TFloat64, TFloat64 | TString, TString
  | TInterface, TInterface | TError, TError
  | TMapSI, TMapSI | TSliceI, TSliceI => true
  | TChan x, TChan y => rtype_eqb x y
  | TPtr x, TPtr y => rtype_eqb x y
  | TStruct fa, TStruct fb =>
      (fix go (xs ys : list (string * rtype)) {struct xs} : bool :=
         match xs, ys with
         | [], [] => true
         | x :: xs', y :: ys' =>
             String.eqb (fst x) (fst y) && rtype_eqb (snd x) (snd y) && go xs' ys'
         | _, _ => false
         end) fa fb
  | TFunc ia oa, TFunc ib ob =>
      let go := fix go (xs ys : list rtype) {struct xs} : bool :=
        match xs, ys with
        | [], [] => true
        | x :: xs', y :: ys' => rtype_eqb x y && go xs' ys'
        | _, _ => false
        end in
      go ia ib && go oa ob
  | TNamed p n u ev ep, TNamed p' n' u' ev' ep' =>
      String.eqb p p' && String.eqb n n' && rtype_eqb u u'
      && Bool.eqb ev ev' && Bool.eqb ep ep'
  | _, _ => false
  end.

(** [Type.Kind()] *)
Fixpoint KindOf (t : rtype) : Kind :=
  match t with
  | TBool => KBool | TInt => KInt | TFloat64 => KFloat64 | TString => KString
  | TInterface | TError => KInterface
  | TMapSI => KMap | TSliceI => KSlice
  | TChan _ => KChan | TPtr _ => KPointer
  | TStruct _ => KStruct | TFunc _ _ => KFunc
  | TNamed _ _ u _ _ => KindOf u
  end.

(** [Type.Name()]: the declared name, empty for a type literal. *)
Definition Name (t : rtype) : string :=
  match t with
  | TBool => "bool" | TInt => "int" | TFloat64 => "float64"
  | TString => "string" | TError => "error"
  | TNamed _ name _ _ _ => name
  | _ => ""
  end.

(** [Kind.String()] *)
Definition KindString (k : Kind) : string :=
  match k with
  | KBool => "bool" | KInt => "int" | KFloat64 => "float64" | KString => "string"
  | KInterface => "interface" | KMap => "map" | KPointer => "ptr"
  | KSlice => "slice" | KChan => "chan" | KFunc => "func" | KStruct => "struct"
  end.

(** Outcomes of Go calls.  A Go call either returns or panics.  Errors are
    ordinary return values (see [value] below); a panic unwinds through the
    router, which never recovers.  A panic carries its message.  One message
    of package [reflect] spells out two types, "reflect: Call using <given>
    as type <wanted>"; the text of a type holds names the model does not keep
    (package names, the Go names of struct fields), so that panic is given by
    the two types. *)
Inductive panicValue : Type :=
| PanicText (msg : string)
| CallUsing (given wanted : rtype).

Coercion PanicText : string >-> panicValue.

Inductive outcome (A : Type) : Type :=
| Returns (a : A)
| Panics (why : panicValue).
Arguments Returns {A} a.
Arguments Panics {A} why.

#[global] Instance outcome_ret : MRet outcome := fun A a => Returns a.
#[global] Instance outcome_bind : MBind outcome := fun A B f m =>
  match m with
  | Returns a => f a
  | Panics why => Panics why
  end.

(** [Type.Elem()]; it panics on a type without an element type. *)
Fixpoint Elem (t : rtype) : outcome rtype :=
  match t with
  | TChan e | TPtr e => Returns e
  | TMapSI | TSliceI => Returns TInterface
  | TNamed _ _ u _ _ => Elem u
  | _ => Panics "reflect: Elem of invalid type"
  end.

Fixpoint underlying (t : rtype) : rtype :=
  match t with
  | TNamed _ _ u _ _ => underlying u
  | _ => t
  end.

(** Parameter and result lists of a function type ([NumIn], [In], [NumOut],
    [Out]); the router reads them only after it has checked the kind. *)
Definition ins (t : rtype) : list rtype :=
  match underlying t with TFunc i _ => i | _ => [] end.
Definition outs (t : rtype) : list rtype :=
  match underlying t with TFunc _ o => o | _ => [] end.
Definition NumIn (t : rtype) : nat := length (ins t).
Definition NumOut (t : rtype) : nat := length (outs t).
Definition TypeIn (t : rtype) (i : nat) : outcome rtype :=
  match ins t !! i with
  | Some x => Returns x
  | None => Panics "reflect: Func index out of bounds"
  end.
Definition TypeOut (t : rtype) (i : nat) : outcome rtype :=
  match outs t !! i with
  | Some x => Returns x
  | None => Panics "reflect: Func index out of bounds"
  end.

(** [t.Implements(errorInterface)]: the method set of [t] holds
    [Error() string].  The method set of a pointer to a defined
    type holds the methods of both receivers; interface types other than
    [error] (and types defined from it) are empty here. *)
Definition ImplementsError (t : rtype) : bool :=
  match t with
  | TError => true
  | TNamed _ _ u ev _ =>
      match underlying u with
      | TError => true
      | TInterface | TPtr _ => false
      | _ => ev
      end
  | TPtr (TNamed _ _ u ev ep) =>
      match underlying u with
      | TError | TInterface | TPtr _ => false
      | _ => ev || ep
      end
  | _ => false
  end.

(** Named types in the sense of assignability: predeclared and defined
    types. *)
Definition isNamed (t : rtype) : bool :=
  match t with
  | TBool | TInt | TFloat64 | TString | TError | TNamed _ _ _ _ _ => true
  | _ => false
  end.

(** [v.AssignableTo(t)] *)
Definition AssignableTo (v t : rtype) : bool :=
  rtype_eqb v t
  || (rtype_eqb (underlying v) (underlying t) && negb (isNamed v && isNamed t))
  || match underlying t with
     | TInterface => true
     | TError => ImplementsError v
     | _ => false
     end.

End Reflect.
Export Reflect.

(** ** Values

    Errors are values.  [goerror] lists the errors the router itself makes
    with [fmt.Errorf], one constructor per format string, and [ErrorString]
    stands for an error made elsewhere, for instance by a handler. *)

Inductive jsonerror : Type :=
| UnsupportedTypeError
| UnsupportedValueError (str : string)
| UnmarshalTypeError (what : string) (target : rtype).

Inductive goerror : Type :=
| ErrAlreadyRegistered (name : string)
| ErrNotFunction (k : Kind)
| ErrNumIn (n : nat)
| ErrNumOut (n : nat)
| ErrFirstArgument (t : rtype)
| ErrSecondReturn (t : rtype)
| ErrUnknownCommand (command : string)
| ErrMarshal (cause : jsonerror)
| ErrUnmarshal (typeName : string) (cause : jsonerror)
| ErrorString (msg : string).

(** What an [interface{}] can hold.  [VNil] is the nil interface; a nil
    pointer, map or slice held in an interface is a different value.  Maps
    are [map[string]interface{}], slices [[]interface{}]; a map is the list of
    its entries.  A finite [float64] is given by its exact rational value
    (negative zero is not told apart from zero), the other three by
    [VNonFinite]; [VOpaque] is a channel or a function. *)
Inductive nonFinite : Type := NaN | PosInf | NegInf.

Inductive value : Type :=
| VNil
| VBool (b : bool)
| VInt (z : Z)
| VFloat (q : Q)
| VNonFinite (x : nonFinite)
| VString (s : string)
| VNilSlice
| VSlice (l : list value)
| VNilMap
| VMap (m : list (string * value))
| VPtr (target : option value)
| VStruct (fields : list (string * value))
| VOpaque (isnil : bool)
| VError (e : goerror).

(** The zero value of a type, which [reflect.New] allocates. *)
Fixpoint zero (t : rtype) : value :=
  match t with
  | TBool => VBool false
  | TInt => VInt 0
  | TFloat64 => VFloat 0
  | TString => VString ""
  | TInterface | TError => VNil
  | TMapSI => VNilMap
  | TSliceI => VNilSlice
  | TChan _ | TFunc _ _ => VOpaque true
  | TPtr _ => VPtr None
  | TStruct fs => VStruct (List.map (fun f => (fst f, zero (snd f))) fs)
  | TNamed _ _ u _ _ => zero u
  end.

(** A [reflect.Value]: a value together with its static type. *)
Record rvalue : Type := RValue { rv_type : rtype; rv_val : value }.

(** [Value.IsNil()]: it panics unless the kind is one that has a nil. *)
Definition IsNil (v : rvalue) : outcome bool :=
  match KindOf (rv_type v) with
  | KInterface => Returns (match rv_val v with VNil => true | _ => false end)
  | KPointer => Returns (match rv_val v with VPtr None => true | _ => false end)
  | KMap => Returns (match rv_val v with VNilMap => true | _ => false end)
  | KSlice => Returns (match rv_val v with VNilSlice => true | _ => false end)
  | KChan | KFunc => Returns (match rv_val v with VOpaque true => true | _ => false end)
  | k => Panics ("reflect: call of reflect.Value.IsNil on " ++ KindString k ++ " Value")
  end.

(** ** Handlers and their invocation

    A handler is whatever the caller passed for the [interface{}] parameter:
    nothing at all ([NilHandler], the nil interface), or a value of some type
    [t].  When [t] is a function type the value is a function with body
    [code] ([HandlerOf t code]) or the nil function of that type
    ([NilFuncOf t]), which has a type and no body; for a value of another
    type the two constructors stand for the same handler.  A body returns its
    results or panics; what else it does is outside the model.  A computation
    that may call handler bodies records, in [calls], the arguments of every
    body it entered. *)

Definition gofunc : Type := list value -> outcome (list value).

Inductive CommandHandler : Type :=
| NilHandler
| HandlerOf (t : rtype) (code : gofunc)
| NilFuncOf (t : rtype).

Definition invocation : Type := list value.

Record run (A : Type) : Type := Run { calls : list invocation; final : outcome A }.
Arguments Run {A} calls final.
Arguments calls {A} r.
Arguments final {A} r.

#[global] Instance run_ret : MRet run := fun A a => Run [] (Returns a).
#[global] Instance run_bind : MBind run := fun A B f m =>
  match final m with
  | Returns a => Run (calls m ++ calls (f a)) (final (f a))
  | Panics why => Run (calls m) (Panics why)
  end.

Definition panic {A} (why : panicValue) : run A := Run [] (Panics why).
Definition lift {A} (o : outcome A) : run A := Run [] o.

(** [reflect.ValueOf(handler).Type()] *)
Definition TypeOfHandler (h : CommandHandler) : outcome rtype :=
  match h with
  | NilHandler => Panics "reflect: call of reflect.Value.Type on zero Value"
  | HandlerOf t _ | NilFuncOf t => Returns t
  end.

(** As many arguments as parameters, each assignable to its parameter. *)
Fixpoint assignableAll (args : list rvalue) (params : list rtype) : bool :=
  match args, params with
  | [], [] => true
  | a :: args', p :: params' => AssignableTo (rv_type a) p && assignableAll args' params'
  | _, _ => false
  end.

(** The first argument that is not assignable to its parameter: its type
    and the parameter's. *)
Fixpoint firstMismatch (args : list rvalue) (params : list rtype) : option (rtype * rtype) :=
  match args, params with
  | a :: args', p :: params' =>
      if AssignableTo (rv_type a) p then firstMismatch args' params'
      else Some (rv_type a, p)
  | _, _ => None
  end.

Definition notAFunction (t : rtype) : panicValue :=
  "reflect: call of reflect.Value.Call on " ++ KindString (KindOf t) ++ " Value".

(** [reflect.Value.Call]: the kind, the function not being nil, the argument
    count and the assignability of every argument are checked, in this order,
    before the body is entered. *)
Definition Call (h : CommandHandler) (args : list rvalue) : run (list rvalue) :=
  match h with
  | NilHandler => panic "reflect: call of reflect.Value.Call on zero Value"
  | NilFuncOf t =>
      if negb (bool_decide (KindOf t = KFunc)) then panic (notAFunction t)
      else panic "reflect.Value.Call: call of nil function"
  | HandlerOf t code =>
      if negb (bool_decide (KindOf t = KFunc)) then panic (notAFunction t)
      else if (length args <? NumIn t)%nat then
        panic "reflect: Call with too few input arguments"
      else if (NumIn t <? length args)%nat then
        panic "reflect: Call with too many input arguments"
      else
        match firstMismatch args (ins t) with
        | Some (given, wanted) => panic (CallUsing given wanted)
        | None =>
            Run [List.map rv_val args]
                (results ← code (List.map rv_val args);
                 mret (zip_with RValue (outs t) results))
        end
  end.

(** ** Results of fallible library calls *)

Inductive result (E A : Type) : Type :=
| Ok (a : A)
| Err (e : E).
Arguments Ok {E A} a.
Arguments Err {E A} e.

#[global] Instance result_ret {E} : MRet (result E) := fun A a => Ok a.
#[global] Instance result_bind {E} : MBind (result E) := fun A B f m =>
  match m with
  | Ok a => f a
  | Err e => Err e
  end.

(** ** Go maps with string keys

    A map is the list of its entries.  [map_set m k v] is the assignment
    [m[k] = v] on a list kept in increasing key order, the order in which
    [encoding/json] writes the entries of a map. *)

Fixpoint map_set {A} (m : list (string * A)) (k : string) (v : A) : list (string * A) :=
  match m with
  | [] => [(k, v)]
  | (k', v') :: m' =>
      match String.compare k k' with
      | Lt => (k, v) :: m
      | Eq => (k, v) :: m'
      | Gt => (k', v') :: map_set m' k v
      end
  end.

Fixpoint map_get {A} (m : list (string * A)) (k : string) : option A :=
  match m with
  | [] => None
  | (k', v') :: m' => if String.eqb k k' then Some v' else map_get m' k
  end.

Definition map_sets {A} (m : list (string * A)) (kvs : list (string * A)) : list (string * A) :=
  fold_left (fun acc kv => map_set acc (fst kv) (snd kv)) kvs m.

(** The entries of a map in increasing key order. *)
Definition sortKeys {A} (m : list (string * A)) : list (string * A) := map_sets [] m.

(** ** Package [strconv]: numbers as text

    The shortest decimal that reads back as a given [float64], and the
    formats that print it.  A positive [float64] [x] with unit in the last
    place [ulp] is the nearest [float64] of every number between the
    midpoints to its two neighbours (the bounds included when its mantissa is
    even); the shortest decimal is the one with the fewest digits in that
    range and, among those, the one nearest [x]. *)

Module Strconv.

Definition Qlt_bool (x y : Q) : bool := negb (Qle_bool y x).

Definition pow2 (e : Z) : Q := Qpower (inject_Z 2) e.
Definition pow10 (k : Z) : Q := Qpower (inject_Z 10) k.

(** [floor (log2 x)], for [x > 0]. *)
Definition floorLog2 (x : Q) : Z :=
  let e := (Z.log2 (Qnum x) - Z.log2 (Z.pos (Qden x)))%Z in
  if Qle_bool (pow2 e) x then e else (e - 1)%Z.

(** [floor (log10 x)], for [x > 0] in the range of [float64]: an estimate
    from the binary logarithm, off by one at most, put right. *)
Definition floorLog10 (x : Q) : Z :=
  let up e := if Qle_bool (pow10 (e + 1)) x then (e + 1)%Z else e in
  let down e := if Qlt_bool x (pow10 e) then (e - 1)%Z else e in
  down (down (up (up (floorLog2 x * 30103 / 100000)%Z))).

(** The exponent of the unit in the last place of [x > 0]: 53 bits of
    mantissa, subnormal below [2^-1022]. *)
Definition ulpExponent (x : Q) : Z := Z.max (floorLog2 x - 52) (-1074).

(** A rational that is a finite [float64]. *)
Definition isFloat64 (q : Q) : bool :=
  Qeq_bool q 0%Q
  || ((Z.pos (Qden (Qred (Qabs q / pow2 (ulpExponent (Qabs q)))%Q)) =? 1)%Z
      && (floorLog2 (Qabs q) <=? 1023)%Z).

(** The shortest decimal [c * 10^k] of [x > 0], tried with 1, 2, ... digits;
    17 digits always tell a [float64] from its neighbours. *)
Definition shortest (x : Q) : Z * Z :=
  let e := ulpExponent x in
  let ulp := pow2 e in
  let mant := Qfloor (x / ulp)%Q in
  let below := if (mant =? 2 ^ 52)%Z && (-1074 <? e)%Z
               then (ulp / inject_Z 4)%Q else (ulp / inject_Z 2)%Q in
  let lo := (x - below)%Q in
  let hi := (x + ulp / inject_Z 2)%Q in
  let inside y := if Z.even mant then Qle_bool lo y && Qle_bool y hi
                  else Qlt_bool lo y && Qlt_bool y hi in
  let e10 := floorLog10 x in
  (fix try (fuel : nat) (n : Z) {struct fuel} : Z * Z :=
     let k := (e10 - n + 1)%Z in
     let c0 := Qfloor (x / pow10 k)%Q in
     match fuel with
     | O => (c0, k)
     | S fuel' =>
         let c1 := (c0 + 1)%Z in
         let y0 := (inject_Z c0 * pow10 k)%Q in
         let y1 := (inject_Z c1 * pow10 k)%Q in
         match inside y0, inside y1 with
         | true, true =>
             if Qlt_bool (x - y0)%Q (y1 - x)%Q then (c0, k)
             else if Qlt_bool (y1 - x)%Q (x - y0)%Q then (c1, k)
             else if Z.even c0 then (c0, k) else (c1, k)
         | true, false => (c0, k)
         | false, true => (c1, k)
         | false, false => try fuel' (n + 1)%Z
         end
     end) 17%nat 1%Z.

Fixpoint stripZeros (fuel : nat) (c k : Z) : Z * Z :=
  match fuel with
  | O => (c, k)
  | S fuel' =>
      if (0 <? c)%Z && (c mod 10 =? 0)%Z then stripZeros fuel' (c / 10) (k + 1) else (c, k)
  end.

(** The shortest decimal without trailing zeros. *)
Definition shortestDigits (x : Q) : Z * Z :=
  let '(c, k) := shortest x in stripZeros 20 c k.

(** [strconv.Itoa] *)
Definition decimal (z : Z) : string := NilZero.string_of_int (Z.to_int z).

Fixpoint zeros (n : nat) : string :=
  match n with O => "" | S n' => String "0" (zeros n') end.

(** The digits of [x > 0] and the position of the decimal point after the
    first of them: [x = 0.D * 10^dp]. *)
Definition digits (x : Q) : string * Z :=
  let '(c, k) := shortestDigits x in
  (decimal c, (Z.of_nat (String.length (decimal c)) + k)%Z).

(** Format [e] with the shortest digits: [d.ddde±xx]. *)
Definition fmtE (D : string) (dp : Z) : string :=
  let exp := (dp - 1)%Z in
  String.substring 0 1 D
  ++ (if (1 <? String.length D)%nat
      then "." ++ String.substring 1 (String.length D - 1) D else "")
  ++ "e" ++ (if (exp <? 0)%Z then "-" else "+")
  ++ (if (Z.abs exp <? 10)%Z then "0" ++ decimal (Z.abs exp) else decimal (Z.abs exp)).

(** Format [f] with the shortest digits. *)
Definition fmtF (D : string) (dp : Z) : string :=
  let n := String.length D in
  let d := Z.to_nat dp in
  (if (0 <? dp)%Z then String.substring 0 d D ++ zeros (d - n) else "0")
  ++ (if (dp <? Z.of_nat n)%Z
      then "." ++ zeros (Z.to_nat (- dp)) ++ String.substring d (n - d) D
      else "").

Definition signed (q : Q) (s : string) : string :=
  if Qlt_bool q 0%Q then "-" ++ s else s.

(** [strconv.FormatFloat(f, 'g', -1, 64)], which is also [fmt]'s [%v]:
    format [e] when the exponent is below -4 or at least 6. *)
Definition FormatFloatG (q : Q) : string :=
  if Qeq_bool q 0%Q then "0" else
  let '(D, dp) := digits (Qabs q) in
  signed q (if (dp - 1 <? -4)%Z || (6 <=? dp - 1)%Z then fmtE D dp else fmtF D dp).

End Strconv.
Export Strconv.

(** ** Package [encoding/json]

    [json.Marshal] and [json.Unmarshal] as their documentation describes
    them, on the values and types above (no custom marshalers, no field
    options, [int] of 64 bits).  The router marshals the keyed object and
    unmarshals the bytes at once, so the document between the two calls is
    kept as its syntax tree.  Two Unicode tables of the Go runtime are
    parameters: how a string reads back after the encoder has replaced
    invalid UTF-8 in it, and the case folding by which the decoder matches
    keys to struct fields. *)

Class Unicode : Type := {
  toValidUTF8 : string -> string;
  foldName : string -> string;
}.

Module Json.

Inductive json : Type :=
| JNull
| JBool (b : bool)
| JInt (z : Z)                 (* a number written without fraction or exponent *)
| JFrac (q : Q)                (* any other number *)
| JString (s : string)
| JArray (l : list json)
| JObject (members : list (string * json)).

(** The encoder writes a [float64] with its shortest digits, in format [e]
    when it is below [1e-6] (the [float64] of that name) or at least [1e21]
    in magnitude, with a one-digit exponent where [strconv] writes [e-0x],
    and in format [f] otherwise. *)
Definition usesExponent (x : Q) : bool :=
  Qlt_bool x (4722366482869645 # 2 ^ 72)%Q || Qle_bool (pow10 21) x.

Definition floatText (q : Q) : string :=
  if Qeq_bool q 0%Q then "0" else
  let '(D, dp) := digits (Qabs q) in
  signed q
    (if usesExponent (Qabs q) then
       let s := fmtE D dp in
       let n := String.length s in
       if (4 <=? n)%nat && String.eqb (String.substring (n - 4) 1 s) "e"
          && String.eqb (String.substring (n - 2) 1 s) "0"
       then String.substring 0 (n - 2) s ++ String.substring (n - 1) 1 s
       else s
     else fmtF D dp).

(** The number the encoder writes for a [float64]: its text has neither
    fraction nor exponent when format [f] is used and the shortest digits end
    before the decimal point. *)
Definition floatLiteral (q : Q) : json :=
  if Qeq_bool q 0%Q then JInt 0 else
  let '(c, k) := shortestDigits (Qabs q) in
  if negb (usesExponent (Qabs q)) && (0 <=? k)%Z
  then JInt (if Qlt_bool q 0%Q then (- (c * 10 ^ k))%Z else (c * 10 ^ k)%Z)
  else JFrac q.

(** The text of a number of a document the encoder wrote. *)
Definition numberLiteral (j : json) : string :=
  match j with
  | JInt z => decimal z
  | JFrac q => floatText q
  | _ => ""
  end.

(** The [float64] nearest to an integer (ties to even, 53 bits). *)
Definition roundFloat64 (z : Z) : Z :=
  let a := Z.abs z in
  let k := (Z.log2 a - 52)%Z in
  if (k <=? 0)%Z then z
  else
    let q := (a / 2 ^ k)%Z in
    let r := (a mod 2 ^ k)%Z in
    let half := (2 ^ (k - 1))%Z in
    let q' := if (r <? half)%Z then q
              else if (half <? r)%Z then (q + 1)%Z
              else if Z.even q then q else (q + 1)%Z in
    (Z.sgn z * (q' * 2 ^ k))%Z.

Definition inInt64 (z : Z) : bool := (- 2 ^ 63 <=? z)%Z && (z <? 2 ^ 63)%Z.

Section codec.
Context `{Unicode}.

(** [json.Marshal] of a value held in an [interface{}].  Map entries are
    written in key order, struct fields in declaration order; an error value
    is a struct without exported fields. *)
Fixpoint marshal (v : value) : result jsonerror json :=
  match v with
  | VNil | VNilSlice | VNilMap | VPtr None => Ok JNull
  | VBool b => Ok (JBool b)
  | VInt z => Ok (JInt z)
  | VFloat q => Ok (floatLiteral q)
  | VNonFinite x =>
      Err (UnsupportedValueError
             match x with NaN => "NaN" | PosInf => "+Inf" | NegInf => "-Inf" end)
  | VString s => Ok (JString (toValidUTF8 s))
  | VSlice l =>
      js ← (fix elems (l : list value) : result jsonerror (list json) :=
              match l with
              | [] => Ok []
              | x :: l' => j ← marshal x; js ← elems l'; Ok (j :: js)
              end) l;
      Ok (JArray js)
  | VMap m =>
      ms ← (fix entries (m : list (string * value)) : result jsonerror (list (string * json)) :=
              match m with
              | [] => Ok []
              | kv :: m' => j ← marshal (snd kv); ms ← entries m'; Ok ((fst kv, j) :: ms)
              end) m;
      Ok (JObject (List.map (fun kj => (toValidUTF8 (fst kj), snd kj)) (sortKeys ms)))
  | VPtr (Some x) => marshal x
  | VStruct fs =>
      ms ← (fix fields (fs : list (string * value)) : result jsonerror (list (string * json)) :=
              match fs with
              | [] => Ok []
              | kv :: fs' => j ← marshal (snd kv); ms ← fields fs'; Ok ((fst kv, j) :: ms)
              end) fs;
      Ok (JObject ms)
  | VOpaque _ => Err UnsupportedTypeError
  | VError _ => Ok (JObject [])
  end.

(** Decoding into an [interface{}]. *)
Fixpoint decodeAny (j : json) : value :=
  match j with
  | JNull => VNil
  | JBool b => VBool b
  | JInt z => VFloat (inject_Z (roundFloat64 z))
  | JFrac q => VFloat q
  | JString s => VString s
  | JArray l => VSlice (List.map decodeAny l)
  | JObject ms => VMap (sortKeys (List.map (fun kj => (fst kj, decodeAny (snd kj))) ms))
  end.

Definition describe (j : json) : string :=
  match j with
  | JNull => "null" | JBool _ => "bool" | JInt _ | JFrac _ => "number"
  | JString _ => "string" | JArray _ => "array" | JObject _ => "object"
  end.

Fixpoint indexWhere (p : string -> bool) (i : nat) (fs : list (string * rtype)) : option nat :=
  match fs with
  | [] => None
  | f :: fs' => if p (fst f) then Some i else indexWhere p (S i) fs'
  end.

(** The field a key addresses: the field with exactly that key, else the
    first field whose key folds to the same name. *)
Definition findField (fs : list (string * rtype)) (key : string) : option nat :=
  match indexWhere (String.eqb key) 0 fs with
  | Some i => Some i
  | None => indexWhere (fun k => String.eqb (foldName k) (foldName key)) 0 fs
  end.

Definition fieldsOf (cur : value) (fs : list (string * rtype)) : list (string * value) :=
  match cur with
  | VStruct vs => vs
  | _ => List.map (fun f => (fst f, zero (snd f))) fs
  end.

(** Decoding document [j] into a variable of type [t] that holds [cur].
    [null] resets an interface, pointer, map or slice and leaves anything
    else alone; a pointer is allocated when nil and decoded through; an
    [interface{}] takes the generic value; an object fills a struct member by
    member, in document order: a key that addresses no field is skipped, a
    field no key addresses keeps what it held.  A number that does not parse
    as an [int] is reported with its text, any other mismatch by the sort of
    the document; the first one met is the error [Unmarshal] reports. *)
Fixpoint decode (j : json) : rtype -> value -> result jsonerror value :=
  fix into (t : rtype) (cur : value) {struct t} : result jsonerror value :=
    let mismatch := Err (UnmarshalTypeError (describe j) t) in
    let unparsed := Err (UnmarshalTypeError ("number " ++ numberLiteral j) t) in
    match t with
    | TNamed _ _ u _ _ => into u cur
    | TPtr e =>
        match j with
        | JNull => Ok (VPtr None)
        | _ =>
            v ← into e (match cur with VPtr (Some c) => c | _ => zero e end);
            Ok (VPtr (Some v))
        end
    | TInterface => Ok (decodeAny j)
    | TError => match j with JNull => Ok VNil | _ => mismatch end
    | TBool => match j with JNull => Ok cur | JBool b => Ok (VBool b) | _ => mismatch end
    | TInt =>
        match j with
        | JNull => Ok cur
        | JInt z => if inInt64 z then Ok (VInt z) else unparsed
        | JFrac _ => unparsed
        | _ => mismatch
        end
    | TFloat64 =>
        match j with
        | JNull => Ok cur
        | JInt z => Ok (VFloat (inject_Z (roundFloat64 z)))
        | JFrac q => Ok (VFloat q)
        | _ => mismatch
        end
    | TString => match j with JNull => Ok cur | JString s => Ok (VString s) | _ => mismatch end
    | TMapSI =>
        match j with
        | JNull => Ok VNilMap
        | JObject ms =>
            Ok (VMap (map_sets (match cur with VMap m => m | _ => [] end)
                               (List.map (fun kj => (fst kj, decodeAny (snd kj))) ms)))
        | _ => mismatch
        end
    | TSliceI =>
        match j with
        | JNull => Ok VNilSlice
        | JArray l => Ok (VSlice (List.map decodeAny l))
        | _ => mismatch
        end
    | TChan _ | TFunc _ _ => match j with JNull => Ok cur | _ => mismatch end
    | TStruct fs =>
        match j with
        | JNull => Ok cur
        | JObject ms =>
            (fix members (ms : list (string * json)) (acc : list (string * value))
               {struct ms} : result jsonerror value :=
               match ms with
               | [] => Ok (VStruct acc)
               | kj :: ms' =>
                   match findField fs (fst kj) with
                   | None => members ms' acc
                   | Some i =>
                       match fs !! i, acc !! i with
                       | Some f, Some c =>
                           v ← decode (snd kj) (snd f) (snd c);
                           members ms' (<[i := (fst f, v)]> acc)
                       | _, _ => members ms' acc
                       end
                   end
               end) ms (fieldsOf cur fs)
        | _ => mismatch
        end
    end.

(** [json.Unmarshal(bytes, p)] for [p] pointing at a fresh variable of type
    [t]. *)
Definition unmarshal (j : json) (t : rtype) : result jsonerror value :=
  decode j t (zero t).

End codec.
End Json.
Export Json.

(** ** command.go *)

Definition ParamType : Type := string.
Definition ParamTypeString : ParamType := "string".
Definition ParamTypeInt : ParamType := "int".
Definition ParamTypeFloat : ParamType := "float".
Definition ParamTypeBool : ParamType := "bool".
Definition ParamTypeObject : ParamType := "object".
Definition ParamTypeArray : ParamType := "array".

Record ParameterMetadata : Type := {
  pName : string;
  pType : ParamType;
  pDescription : string;
  pRequired : bool;
  pDefault : value;              (* VNil when no default is set *)
}.

Record ReturnTypeMetadata : Type := {
  rName : string;
  rDescription : string;
  rSchema : list (string * ParamType);
}.

Record CommandExample : Type := {
  eDescription : string;
  eArgs : value;
  eResult : value;
}.

Record CommandMetadata : Type := {
  mName : string;
  mDescription : string;
  mParameters : list ParameterMetadata;
  mReturnType : option ReturnTypeMetadata;
  mExamples : list CommandExample;
}.

(** A functional option mutates the metadata it is handed. *)
Definition CommandOption : Type := CommandMetadata -> CommandMetadata.

Definition WithDescription (desc : string) : CommandOption := fun m =>
  {| mName := mName m; mDescription := desc; mParameters := mParameters m;
     mReturnType := mReturnType m; mExamples := mExamples m |}.

Definition WithParameters (params : list ParameterMetadata) : CommandOption := fun m =>
  {| mName := mName m; mDescription := mDescription m; mParameters := params;
     mReturnType := mReturnType m; mExamples := mExamples m |}.

Definition WithReturnType (name : string) (schema : list (string * ParamType)) : CommandOption :=
  fun m =>
  {| mName := mName m; mDescription := mDescription m; mParameters := mParameters m;
     mReturnType := Some {| rName := name; rDescription := ""; rSchema := schema |};
     mExamples := mExamples m |}.

Definition WithExamples (examples : list CommandExample) : CommandOption := fun m =>
  {| mName := mName m; mDescription := mDescription m; mParameters := mParameters m;
     mReturnType := mReturnType m; mExamples := examples |}.

Definition ParamOption : Type := ParameterMetadata -> ParameterMetadata.

Definition Param (name : string) (paramType : ParamType) (desc : string)
    (opts : list ParamOption) : ParameterMetadata :=
  fold_left (fun p opt => opt p) opts
    {| pName := name; pType := paramType; pDescription := desc;
       pRequired := true; pDefault := VNil |}.

Definition Required : ParamOption := fun p =>
  {| pName := pName p; pType := pType p; pDescription := pDescription p;
     pRequired := true; pDefault := pDefault p |}.

Definition Optional : ParamOption := fun p =>
  {| pName := pName p; pType := pType p; pDescription := pDescription p;
     pRequired := false; pDefault := pDefault p |}.

Definition Default (val : value) : ParamOption := fun p =>
  {| pName := pName p; pType := pType p; pDescription := pDescription p;
     pRequired := false; pDefault := val |}.

(** ** router.go *)

Record registeredCommand : Type := {
  metadata : CommandMetadata;
  handler : CommandHandler;
  argType : option rtype;        (* None if the handler takes no args beyond Context *)
}.

(** The router; its lock is not part of the sequential model. *)
Record CommandRouter : Type := { commands : gmap string registeredCommand }.

Definition NewCommandRouter : CommandRouter := {| commands := ∅ |}.

(** The SDK's own [Context] type (its fields play no part in routing) and
    the type of the [ctx] parameter of [Route]. *)
Definition sdkPath : string := "github.com/wabisaby/wabisaby-plugin-sdk".
Definition ContextType : rtype := TNamed sdkPath "Context" (TStruct []) false false.
Definition ContextPtr : rtype := TPtr ContextType.

Definition isNilInterface (v : value) : bool :=
  match v with VNil => true | _ => false end.

(** [Register]: the error it returns and the router afterwards.  A panic
    leaves the router as it was. *)
Definition Register (r : CommandRouter) (name : string) (handler : CommandHandler)
    (opts : list CommandOption) : outcome (value * CommandRouter) :=
  if bool_decide (is_Some (commands r !! name)) then
    mret (VError (ErrAlreadyRegistered name), r)
  else
  handlerType ← TypeOfHandler handler;
  if negb (bool_decide (KindOf handlerType = KFunc)) then
    mret (VError (ErrNotFunction (KindOf handlerType)), r)
  else if (NumIn handlerType <? 1)%nat || (2 <? NumIn handlerType)%nat then
    mret (VError (ErrNumIn (NumIn handlerType)), r)
  else if negb (NumOut handlerType =? 2)%nat then
    mret (VError (ErrNumOut (NumOut handlerType)), r)
  else
  ctxType ← TypeIn handlerType 0;
  notContext ← (if negb (bool_decide (KindOf ctxType = KPointer)) then mret true
                else e ← Elem ctxType; mret (negb (String.eqb (Name e) "Context")));
  if notContext : bool then
    mret (VError (ErrFirstArgument ctxType), r)
  else
  errType ← TypeOut handlerType 1;
  if negb (ImplementsError errType) then
    mret (VError (ErrSecondReturn errType), r)
  else
  let metadata :=
    fold_left (fun m (opt : CommandOption) => opt m) opts
      {| mName := name; mDescription := ""; mParameters := [];
         mReturnType := None; mExamples := [] |} in
  argType ← (if (NumIn handlerType =? 2)%nat then
               argType ← TypeIn handlerType 1;
               if bool_decide (KindOf argType = KPointer)
               then e ← Elem argType; mret (Some e)
               else mret (Some argType)
             else mret None);
  let cmd := {| metadata := metadata; handler := handler; argType := argType |} in
  mret (VNil, {| commands := <[name := cmd]> (commands r) |}).

Definition routerAfter (r : CommandRouter) (o : outcome (value * CommandRouter)) : CommandRouter :=
  match o with
  | Returns (_, r') => r'
  | Panics _ => r
  end.

Section routing.
Context `{Unicode}.

(** The map built from positional args (the loop over
    [cmd.metadata.Parameters]); [i] is the loop index. *)
Fixpoint zipParameters (parameters : list ParameterMetadata) (args : list value)
    (i : nat) (argsMap : list (string * value)) : list (string * value) :=
  match parameters with
  | [] => argsMap
  | param :: rest =>
      zipParameters rest args (S i)
        (if (i <? length args)%nat then
           map_set argsMap (pName param) (nth i args VNil)
         else if negb (isNilInterface (pDefault param)) then
           map_set argsMap (pName param) (pDefault param)
         else argsMap)
  end.

(** [argsMap], for a non-empty [args]: the first arg when it is already a
    map, else the map built from the positional args. *)
Definition bindSource (parameters : list ParameterMetadata) (args : list value) : value :=
  match args with
  | VMap m :: _ => VMap m
  | VNilMap :: _ => VNilMap
  | _ => VMap (zipParameters parameters args 0 [])
  end.

(** The typed argument of the call, the first half of [invokeHandler]:
    nothing when the handler takes none, else [reflect.New(cmd.argType)], a
    pointer to a fresh variable of the argument type, filled from the args
    through JSON when there are any.  An error here is what [invokeHandler]
    returns, wrapped. *)
Definition bindArguments (cmd : registeredCommand) (handlerType : rtype)
    (args : list value) : result goerror (list rvalue) :=
  match argType cmd with
  | Some argT =>
      if (NumIn handlerType =? 2)%nat then
        if (0 <? length args)%nat then
          match marshal (bindSource (mParameters (metadata cmd)) args) with
          | Err e => Err (ErrMarshal e)
          | Ok jsonBytes =>
              match unmarshal jsonBytes argT with
              | Err e => Err (ErrUnmarshal (Name argT) e)
              | Ok v => Ok [RValue (TPtr argT) (VPtr (Some v))]
              end
          end
        else Ok [RValue (TPtr argT) (VPtr (Some (zero argT)))]
      else Ok []
  | None => Ok []
  end.

(** [results[1].Interface().(error)]: the assertion holds for every value of
    a static type that implements [error], which is what [Register] has
    checked, and for the error values of this model. *)
Definition assertError (v : rvalue) : bool :=
  ImplementsError (rv_type v) || match rv_val v with VError _ => true | _ => false end.

(** The second half of [invokeHandler]: the extraction of the return
    values from the results of the call. *)
Definition returnValues (results : list rvalue) : outcome (value * value) :=
  result ← match results with
           | r0 :: _ =>
               isnil ← IsNil r0;
               mret (if isnil : bool then VNil else rv_val r0)
           | [] => mret VNil
           end;
  err ← match results with
        | _ :: r1 :: _ =>
            isnil ← IsNil r1;
            mret (if isnil : bool then VNil
                  else if assertError r1 then rv_val r1 else VNil)
        | _ => mret VNil
        end;
  mret (result, err).

Definition invokeHandler (ctx : value) (cmd : registeredCommand) (args : list value)
    : run (value * value) :=
  handlerType ← lift (TypeOfHandler (handler cmd));
  match bindArguments cmd handlerType args with
  | Err e => mret (VNil, VError e)
  | Ok argPtr =>
      results ← Call (handler cmd) (RValue ContextPtr ctx :: argPtr);
      lift (returnValues results)
  end.

Definition Route (r : CommandRouter) (ctx : value) (command : string) (args : list value)
    : run (value * value) :=
  match commands r !! command with
  | None => mret (VNil, VError (ErrUnknownCommand command))
  | Some cmd => invokeHandler ctx cmd args
  end.

End routing.

Definition GetCommands (r : CommandRouter) : list CommandMetadata :=
  List.map (fun kc => metadata (snd kc)) (map_to_list (commands r)).

Definition HasCommand (r : CommandRouter) (name : string) : bool :=
  bool_decide (is_Some (commands r !! name)).

Definition CommandCount (r : CommandRouter) : nat := size (commands r).

(** ** An instance of the Unicode tables for ASCII text

    On ASCII strings every byte sequence is valid UTF-8 and folding is
    upper-casing.  The concrete commands below use ASCII strings only. *)

Definition asciiUpper (c : ascii) : ascii :=
  let n := nat_of_ascii c in
  if (97 <=? n)%nat && (n <=? 122)%nat then ascii_of_nat (n - 32) else c.

Fixpoint asciiFold (s : string) : string :=
  match s with
  | EmptyString => EmptyString
  | String c s' => String (asciiUpper c) (asciiFold s')
  end.

Definition asciiUnicode : Unicode := {| toValidUTF8 := fun s => s; foldName := asciiFold |}.

(** * Definitions used by the statements *)

(** The four conditions of the signature validator, read off the handler's
    type. *)
Definition contextParameter (c : rtype) : Prop :=
  KindOf c = KPointer /\ exists e, Elem c = Returns e /\ Name e = "Context".

Definition validSignature (t : rtype) : Prop :=
  KindOf t = KFunc
  /\ (1 <= NumIn t <= 2)%nat
  /\ (exists c, ins t !! 0 = Some c /\ contextParameter c)
  /\ NumOut t = 2%nat
  /\ (exists e, outs t !! 1 = Some e /\ ImplementsError e = true).

(** The argument type [Register] derives from the second parameter. *)
Definition argTypeOf (t : rtype) : option rtype :=
  match ins t !! 1 with
  | Some a =>
      if bool_decide (KindOf a = KPointer)
      then match Elem a with Returns e => Some e | Panics _ => None end
      else Some a
  | None => None
  end.

Definition metadataOf (name : string) (opts : list CommandOption) : CommandMetadata :=
  fold_left (fun m (opt : CommandOption) => opt m) opts
    {| mName := name; mDescription := ""; mParameters := [];
       mReturnType := None; mExamples := [] |}.

(** The operations of a router. *)
Inductive operation : Type :=
| OpRegister (name : string) (h : CommandHandler) (opts : list CommandOption)
| OpRoute (ctx : value) (command : string) (args : list value)
| OpGetCommands
| OpHasCommand (name : string)
| OpCommandCount.

(** The router after an operation.  Only [Register] writes [r.commands];
    [Route], [GetCommands], [HasCommand] and [CommandCount] read it. *)
Definition perform (r : CommandRouter) (op : operation) : CommandRouter :=
  match op with
  | OpRegister name h opts => routerAfter r (Register r name h opts)
  | OpRoute _ _ _ | OpGetCommands | OpHasCommand _ | OpCommandCount => r
  end.

Definition noop : gofunc := fun _ => Returns [VNil; VNil].

Definition firstHandler : CommandHandler :=
  HandlerOf (TFunc [ContextPtr] [TInterface; TError]) noop.

Definition secondHandler : CommandHandler :=
  HandlerOf (TFunc [ContextPtr] [TInterface; TError]) (fun _ => Returns [VString "second"; VNil]).

Definition oneCommand : CommandRouter :=
  routerAfter NewCommandRouter (Register NewCommandRouter "ping" firstHandler []).




(** ** A concrete command

    The command of the specification's examples: two declared parameters,
    ["a"] with default 1 and ["b"] required, and a handler
    [func(ctx *Context, args *Args) (interface{}, error)] over
    [type Args struct { A int `json:"a"`; B int `json:"b"` }] that returns
    the argument it was given. *)

Definition twoParameters : list ParameterMetadata :=
  [Param "a" ParamTypeInt "first" [Default (VInt 1)];
   Param "b" ParamTypeInt "second" [Required]].

Definition ArgsType : rtype :=
  TNamed "main" "Args" (TStruct [("a", TInt); ("b", TInt)]) false false.

Definition echo : gofunc := fun args => Returns [nth 1 args VNil; VNil].

Definition echoHandler : CommandHandler :=
  HandlerOf (TFunc [ContextPtr; TPtr ArgsType] [TInterface; TError]) echo.

Definition echoRouter : CommandRouter :=
  routerAfter NewCommandRouter
    (Register NewCommandRouter "echo" echoHandler [WithParameters twoParameters]).

Definition someContext : value := VPtr (Some (VStruct [])).

(** The kinds [Value.IsNil] is defined on. *)
Definition hasNil (k : Kind) : bool :=
  match k with
  | KInterface | KPointer | KMap | KSlice | KChan | KFunc => true
  | _ => false
  end.

(** A handler [func(ctx *Context) (string, error)] and a handler
    [func(ctx *Context, name string) (interface{}, error)]: both pass the
    signature validation. *)
Definition greetHandler : CommandHandler :=
  HandlerOf (TFunc [ContextPtr] [TString; TError]) (fun _ => Returns [VString "hello"; VNil]).

Definition greetRouter : CommandRouter :=
  routerAfter NewCommandRouter (Register NewCommandRouter "greet" greetHandler []).

Definition nameHandler : CommandHandler :=
  HandlerOf (TFunc [ContextPtr; TString] [TInterface; TError]) echo.

Definition nameRouter : CommandRouter :=
  routerAfter NewCommandRouter (Register NewCommandRouter "hello" nameHandler []).

(** A handler [func(ctx *Context) (interface{}, Failure)] over
    [type Failure struct{}] with the method [Error() string]; it returns a
    [Failure]. *)
Definition FailureType : rtype := TNamed "main" "Failure" (TStruct []) true false.

Definition failHandler : CommandHandler :=
  HandlerOf (TFunc [ContextPtr] [TInterface; FailureType])
            (fun _ => Returns [VNil; VStruct []]).

Definition failRouter : CommandRouter :=
  routerAfter NewCommandRouter (Register NewCommandRouter "fail" failHandler []).

(** A handler whose first input points at another package's [Context]. *)
Definition foreignHandler : CommandHandler :=
  HandlerOf (TFunc [TPtr (TNamed "example.com/other" "Context" (TStruct []) false false)]
                   [TInterface; TError]) noop.

Definition foreignRouter : CommandRouter :=
  routerAfter NewCommandRouter (Register NewCommandRouter "other" foreignHandler []).

(** ** Shapes and the values that match them *)

Section shapes.
Context `{Unicode}.



(** [matchesShape t v]: [v] is a value of the shape [t], that is, a value
    a Go variable of type [t] can hold: any value at all for an
    [interface{}], nil or an error for an [error], an integer of 64 bits for
    an [int], a finite or non-finite [float64], a nil or non-nil map, slice,
    channel, function or pointer, a struct field by field. *)
Fixpoint matchesShape (t : rtype) (v : value) {struct t} : Prop :=
  match t with
  | TBool => exists b, v = VBool b
  | TInt => exists z, v = VInt z /\ inInt64 z = true
  | TFloat64 => (exists q, v = VFloat q /\ isFloat64 q = true) \/ exists x, v = VNonFinite x
  | TString => exists s, v = VString s
  | TInterface => True
  | TError => v = VNil \/ exists e, v = VError e
  | TMapSI => v = VNilMap \/ exists m, v = VMap m
  | TSliceI => v = VNilSlice \/ exists l, v = VSlice l
  | TChan _ | TFunc _ _ => exists b, v = VOpaque b
  | TPtr e => v = VPtr None \/ exists x, v = VPtr (Some x) /\ matchesShape e x
  | TStruct fs =>
      exists vs, v = VStruct vs
         /\ (fix fields (fs : list (string * rtype)) (vs : list (string * value)) : Prop :=
               match fs, vs with
               | [], [] => True
               | f :: fs', x :: vs' =>
                   fst x = fst f /\ matchesShape (snd f) (snd x) /\ fields fs' vs'
               | _, _ => False
               end) fs vs
  | TNamed _ _ u _ _ => matchesShape u v
  end.

(** A [float64] that reads back as itself from the number the encoder
    writes for it.  The shortest digits are chosen by [strconv] so that every
    [float64] does; here it is a condition on the value. *)
Definition exactFloat (q : Q) : Prop :=
  match floatLiteral q with
  | JInt z => q = inject_Z (roundFloat64 z)
  | _ => True
  end.

(** [plainValue t v]: [v] is a value of the shape [t] that a JSON document
    carries as it is.  The shape is built from bool, int, float64, string,
    pointers, structs and defined types; field keys are distinct and valid
    UTF-8, strings are valid UTF-8, a [float64] is finite and reads back from
    its text, and a non-nil pointer points at a shape without nil. *)
Fixpoint plainValue (t : rtype) (v : value) {struct t} : Prop :=
  match t with
  | TBool => exists b, v = VBool b
  | TInt => exists z, v = VInt z /\ inInt64 z = true
  | TFloat64 => exists q, v = VFloat q /\ isFloat64 q = true /\ exactFloat q
  | TString => exists s, v = VString s /\ toValidUTF8 s = s
  | TPtr e =>
      v = VPtr None
      \/ (hasNil (KindOf e) = false /\ exists x, v = VPtr (Some x) /\ plainValue e x)
  | TStruct fs =>
      NoDup (List.map fst fs)
      /\ exists vs, v = VStruct vs
         /\ (fix fields (fs : list (string * rtype)) (vs : list (string * value)) : Prop :=
               match fs, vs with
               | [], [] => True
               | f :: fs', x :: vs' =>
                   fst x = fst f /\ toValidUTF8 (fst f) = fst f
                   /\ plainValue (snd f) (snd x) /\ fields fs' vs'
               | _, _ => False
               end) fs vs
  | TNamed _ _ u _ _ => plainValue u v
  | _ => False
  end.


(** The entry-by-entry part of [marshal] on a map. *)
Fixpoint marshalEntries (m : list (string * value)) : result jsonerror (list (string * json)) :=
  match m with
  | [] => Ok []
  | kv :: m' => j ← marshal (snd kv); ms ← marshalEntries m'; Ok ((fst kv, j) :: ms)
  end.

End shapes.









(** A command whose argument has a [float64] field:
    [type Point struct { X float64 `json:"x"` }]. *)
Definition PointType : rtype :=
  TNamed "main" "Point" (TStruct [("x", TFloat64)]) false false.

Definition pointHandler : CommandHandler :=
  HandlerOf (TFunc [ContextPtr; TPtr PointType] [TInterface; TError]) echo.

Definition pointRouter : CommandRouter :=
  routerAfter NewCommandRouter (Register NewCommandRouter "point" pointHandler []).

(** A nil function of an accepted type: a variable of the first documented
    handler type that was never assigned. *)
Definition nilFunction : CommandHandler :=
  NilFuncOf (TFunc [ContextPtr] [TInterface; TError]).

Definition nilFunctionRouter : CommandRouter :=
  routerAfter NewCommandRouter (Register NewCommandRouter "later" nilFunction []).

(** * More of the SDK

    The rest of [router.go] and [command.go] as seen by their users, the
    [BasePlugin] that owns a router, the configuration accessor and the
    helpers that build the fields of a log request. *)

(** ** Registrations along a run of operations *)

Definition accepted (o : outcome (value * CommandRouter)) : bool :=
  match o with
  | Returns (VNil, _) => true
  | _ => false
  end.

(** How many of the [Register] calls among [ops], performed in order from
    router [r], return no error. *)
Fixpoint registrations (r : CommandRouter) (ops : list operation) : nat :=
  match ops with
  | [] => 0
  | op :: ops' =>
      (match op with
       | OpRegister name h opts => if accepted (Register r name h opts) then 1 else 0
       | _ => 0
       end + registrations (perform r op) ops')%nat
  end.

(** What [Register] stores: a handler that is a value (not the nil
    interface) of a function type with a valid signature, and the argument
    type read off its second parameter. *)
Definition wellRegistered (cmd : registeredCommand) : Prop :=
  exists t,
    TypeOfHandler (handler cmd) = Returns t /\ validSignature t
    /\ argType cmd = argTypeOf t.

(** The types a JSON object can be decoded into. *)
Fixpoint takesObject (t : rtype) : bool :=
  match t with
  | TStruct _ | TMapSI | TInterface => true
  | TPtr e => takesObject e
  | TNamed _ _ u _ _ => takesObject u
  | _ => false
  end.

(** ** command.go: the options, given by name

    Options are functions; to speak of "the last option that sets a field"
    the options of [command.go] are also listed as data, [commandOption] and
    [paramOption] giving the function each one stands for. *)

Inductive optionSpec : Type :=
| SDescription (desc : string)
| SParameters (params : list ParameterMetadata)
| SReturnType (name : string) (schema : list (string * ParamType))
| SExamples (examples : list CommandExample).

Definition commandOption (s : optionSpec) : CommandOption :=
  match s with
  | SDescription desc => WithDescription desc
  | SParameters params => WithParameters params
  | SReturnType name schema => WithReturnType name schema
  | SExamples examples => WithExamples examples
  end.

Inductive paramSpec : Type :=
| SRequired
| SOptional
| SDefault (val : value).

Definition paramOption (s : paramSpec) : ParamOption :=
  match s with
  | SRequired => Required
  | SOptional => Optional
  | SDefault val => Default val
  end.

(** The value chosen by the last element of [l] that [pick] selects, [d] if
    there is none. *)
Fixpoint lastPick {S A : Type} (pick : S -> option A) (l : list S) (d : A) : A :=
  match l with
  | [] => d
  | s :: l' => lastPick pick l' (match pick s with Some a => a | None => d end)
  end.

Definition pickDescription (s : optionSpec) : option string :=
  match s with SDescription d => Some d | _ => None end.
Definition pickParameters (s : optionSpec) : option (list ParameterMetadata) :=
  match s with SParameters p => Some p | _ => None end.
Definition pickReturnType (s : optionSpec) : option (option ReturnTypeMetadata) :=
  match s with
  | SReturnType n sch => Some (Some {| rName := n; rDescription := ""; rSchema := sch |})
  | _ => None
  end.
Definition pickExamples (s : optionSpec) : option (list CommandExample) :=
  match s with SExamples e => Some e | _ => None end.

Definition pickRequired (s : paramSpec) : option bool :=
  match s with
  | SRequired => Some true
  | SOptional | SDefault _ => Some false
  end.
Definition pickDefault (s : paramSpec) : option value :=
  match s with SDefault v => Some v | _ => None end.

(** ** BasePlugin

    [BasePlugin] holds a pointer to its router, nil in a zero-valued
    [BasePlugin{}]; its methods create the router when they find none.  Each
    method returns what the Go method returns, and the plugin afterwards. *)

Module Plugin.

Record BasePlugin : Type := { router : option CommandRouter }.

Definition NewBasePlugin : BasePlugin := {| router := Some NewCommandRouter |}.

Definition Initialize (p : BasePlugin) (ctx : value) : value := VNil.

Definition Shutdown (p : BasePlugin) (ctx : value) : value := VNil.

Definition ExecuteCommand `{Unicode} (p : BasePlugin) (ctx : value) (command : string)
    (args : list value) : run (value * value) * BasePlugin :=
  let r := match router p with
           | None => NewCommandRouter
           | Some r => r
           end in
  (Route r ctx command args, {| router := Some r |}).

Definition RegisterCommand (p : BasePlugin) (name : string) (handler : CommandHandler)
    (opts : list CommandOption) : outcome value * BasePlugin :=
  let r := match router p with
           | None => NewCommandRouter
           | Some r => r
           end in
  match Register r name handler opts with
  | Returns (err, r') => (Returns err, {| router := Some r' |})
  | Panics why => (Panics why, {| router := Some r |})
  end.

Definition GetCommands (p : BasePlugin) : list CommandMetadata :=
  match router p with
  | None => []
  | Some r => GetCommands r
  end.

(** The operations of a plugin and what a caller sees of each. *)
Inductive operation : Type :=
| OpRegisterCommand (name : string) (h : CommandHandler) (opts : list CommandOption)
| OpExecuteCommand (ctx : value) (command : string) (args : list value)
| OpGetCommands.

Inductive observation : Type :=
| Registered (err : outcome value)
| Executed (res : run (value * value))
| Commands (ms : list CommandMetadata).

Definition step `{Unicode} (p : BasePlugin) (op : operation) : observation * BasePlugin :=
  match op with
  | OpRegisterCommand name h opts =>
      let '(err, p') := RegisterCommand p name h opts in (Registered err, p')
  | OpExecuteCommand ctx command args =>
      let '(res, p') := ExecuteCommand p ctx command args in (Executed res, p')
  | OpGetCommands => (Commands (GetCommands p), p)
  end.

Fixpoint observe `{Unicode} (p : BasePlugin) (ops : list operation) : list observation :=
  match ops with
  | [] => []
  | op :: ops' => fst (step p op) :: observe (snd (step p op)) ops'
  end.

End Plugin.

(** ** types.go: the configuration accessor

    A [*ConfigAccessor] may be nil and so may its map. *)

Record ConfigAccessor : Type := { data : option (list (string * value)) }.

Definition NewConfigAccessor (d : option (list (string * value))) : option ConfigAccessor :=
  Some {| data := d |}.

Definition ConfigGet (c : option ConfigAccessor) (key : string) : value :=
  match c with
  | None => VNil
  | Some c =>
      match data c with
      | None => VNil
      | Some m => match map_get m key with Some v => v | None => VNil end
      end
  end.

Definition ConfigGetString (c : option ConfigAccessor) (key : string)
    (defaultVal : list string) : string :=
  match ConfigGet c key with
  | VString s => s
  | _ => match defaultVal with d :: _ => d | [] => "" end
  end.

Definition ConfigGetBool (c : option ConfigAccessor) (key : string)
    (defaultVal : list bool) : bool :=
  match ConfigGet c key with
  | VBool b => b
  | _ => match defaultVal with d :: _ => d | [] => false end
  end.

Definition ConfigHas (c : option ConfigAccessor) (key : string) : bool :=
  match c with
  | None => false
  | Some c =>
      match data c with
      | None => false
      | Some m => match map_get m key with Some _ => true | None => false end
      end
  end.

(** ** The fields of a log request

    [toStringMap] (types.go) turns the key-value pairs given to a
    [ContextLogger] method into a [map[string]string]; [mergeFields]
    (logger.go) merges the maps given to a [Logger] method.  Both return nil,
    here [None], rather than an empty map.  [fmt.Sprintf("%v", x)] is a
    parameter. *)

Class Formatter : Type := { formatV : value -> string }.

Section log_fields.
Context `{Formatter}.

Definition keyString (k : value) : string :=
  match k with
  | VString s => s
  | _ => formatV k
  end.

(** The loop [for i := 0; i < len(keysAndValues)-1; i += 2]; it stops within
    [len(keysAndValues)] rounds. *)
Fixpoint toStringMapLoop (rounds i : nat) (keysAndValues : list value)
    (result : gmap string string) : gmap string string :=
  match rounds with
  | O => result
  | S rounds' =>
      if (i <? length keysAndValues - 1)%nat then
        toStringMapLoop rounds' (i + 2) keysAndValues
          (<[keyString (nth i keysAndValues VNil)
             := formatV (nth (i + 1) keysAndValues VNil)]> result)
      else result
  end.

Definition toStringMap (keysAndValues : list value) : option (gmap string string) :=
  if (length keysAndValues =? 0)%nat then None
  else
    let result := toStringMapLoop (length keysAndValues) 0 keysAndValues ∅ in
    if (size result =? 0)%nat then None else Some result.

(** The pairs the loop reads: consecutive values two by two, a last value
    without a partner left out. *)
Fixpoint pairsOf (keysAndValues : list value) : list (string * string) :=
  match keysAndValues with
  | k :: v :: rest => (keyString k, formatV v) :: pairsOf rest
  | _ => []
  end.

End log_fields.

(** The assignments [result[k] = v] for the pairs of a list, in order. *)
Definition insertAll (pairs : list (string * string)) (result : gmap string string)
    : gmap string string :=
  fold_left (fun acc kv => <[fst kv := snd kv]> acc) pairs result.

(** [for k, v := range f { merged[k] = v }] *)
Definition mergeInto (merged f : gmap string string) : gmap string string :=
  map_fold (fun k v acc => <[k := v]> acc) merged f.

(** A nil map ranges like an empty one, so the maps given are [gmap]s. *)
Definition mergeFields (fields : list (gmap string string)) : option (gmap string string) :=
  if (length fields =? 0)%nat then None
  else
    let merged := fold_left mergeInto fields ∅ in
    if (size merged =? 0)%nat then None else Some merged.

(** The map a nil-or-not result stands for when it is ranged over. *)
Definition asMap (m : option (gmap string string)) : gmap string string :=
  match m with
  | Some m => m
  | None => ∅
  end.

(** The [Fields] of the request [Logger.log] sends for a call
    [ContextLogger.Info(msg, keysAndValues...)]: [toStringMap] makes one
    map, [Logger.Info] receives it as its only [fields] argument and sends
    what [mergeFields] makes of it. *)
Definition requestFields `{Formatter} (keysAndValues : list value)
    : option (gmap string string) :=
  mergeFields [asMap (toStringMap keysAndValues)].

(** ** More concrete data *)

(** A handler [func(ctx *Context) (interface{}, error)] that panics. *)
Definition panickingHandler : CommandHandler :=
  HandlerOf (TFunc [ContextPtr] [TInterface; TError]) (fun _ => Panics "boom").

Definition panickingRouter : CommandRouter :=
  routerAfter NewCommandRouter (Register NewCommandRouter "boom" panickingHandler []).

(** A handler [func(ctx *Context, name *string) (interface{}, error)]. *)
Definition stringHandler : CommandHandler :=
  HandlerOf (TFunc [ContextPtr; TPtr TString] [TInterface; TError]) echo.

Definition stringCommand : registeredCommand :=
  {| metadata := metadataOf "name" []; handler := stringHandler; argType := Some TString |}.

Definition stringRouter : CommandRouter :=
  routerAfter NewCommandRouter (Register NewCommandRouter "name" stringHandler []).

(** [fmt]'s [%v] where the model determines it.  Nested values are printed
    as [fmt] prints the elements of a slice, the values of a map (in key
    order) and the fields of a struct; at the top a pointer to a slice, map
    or struct is printed as [&] and what it points at.  For any other
    non-nil pointer, a channel or a function [fmt] prints an address, and for
    an error its text: the model keeps neither, and [opaque] gives them. *)
Definition joinWith (sep : string) (l : list string) : string :=
  match l with
  | [] => ""
  | x :: l' => fold_left (fun acc y => acc ++ sep ++ y) l' x
  end.

Fixpoint formatNested (opaque : value -> string) (v : value) : string :=
  match v with
  | VNil | VPtr None | VOpaque true => "<nil>"
  | VBool true => "true"
  | VBool false => "false"
  | VInt z => decimal z
  | VFloat q => FormatFloatG q
  | VNonFinite NaN => "NaN"
  | VNonFinite PosInf => "+Inf"
  | VNonFinite NegInf => "-Inf"
  | VString s => s
  | VNilSlice => "[]"
  | VSlice l => "[" ++ joinWith " " (List.map (formatNested opaque) l) ++ "]"
  | VNilMap => "map[]"
  | VMap m =>
      "map["
      ++ joinWith " "
           (List.map (fun kv => fst kv ++ ":" ++ snd kv)
              (sortKeys (List.map (fun kv => (fst kv, formatNested opaque (snd kv))) m)))
      ++ "]"
  | VStruct fs =>
      "{" ++ joinWith " " (List.map (fun kv => formatNested opaque (snd kv)) fs) ++ "}"
  | VPtr (Some _) | VOpaque false | VError _ => opaque v
  end.

Definition formatValue (opaque : value -> string) (v : value) : string :=
  match v with
  | VPtr (Some ((VSlice _ | VNilSlice | VMap _ | VNilMap | VStruct _) as x)) =>
      "&" ++ formatNested opaque x
  | _ => formatNested opaque v
  end.

(** The formatter of the examples below, which format nil, booleans,
    numbers and strings. *)
Definition asciiFormatter : Formatter := {| formatV := formatValue (fun _ => "?") |}.
(** * Properties *)

(** ** Facts about the library model *)

Lemma rtype_eqb_refl (t : rtype) : rtype_eqb t t = true.
Proof.
  induction t using rtype_nested_ind; simpl; try reflexivity; try assumption.
  - induction H as [|f fs Hf _ IH]; [reflexivity|].
    rewrite String.eqb_refl, Hf. exact IH.
  - assert (Hgo : forall l, Forall (fun x => rtype_eqb x x = true) l ->
        (fix go (xs ys : list rtype) {struct xs} : bool :=
           match xs, ys with
           | [], [] => true
           | x :: xs', y :: ys' => rtype_eqb x y && go xs' ys'
           | _, _ => false
           end) l l = true).
    { induction 1 as [|x l Hx _ IH]; [reflexivity|]. rewrite Hx. exact IH. }
    rewrite !Hgo by assumption. reflexivity.
  - rewrite !String.eqb_refl, IHt, !Bool.eqb_reflx. reflexivity.
Qed.

Lemma AssignableTo_refl (t : rtype) : AssignableTo t t = true.
Proof. unfold AssignableTo. rewrite rtype_eqb_refl. reflexivity. Qed.

Lemma Elem_of_pointer (t : rtype) :
  KindOf t = KPointer -> exists e, Elem t = Returns e.
Proof.
  induction t using rtype_nested_ind; simpl; intros Hk; try discriminate; eauto.
Qed.

Lemma string_compare_eq (a b : string) : String.compare a b = Eq <-> a = b.
Proof.
  split; [apply String.compare_eq_iff|].
  intros ->. destruct (String.compare b b) eqn:E; [reflexivity| |].
  - pose proof (String.compare_antisym b b) as Ha. rewrite E in Ha. discriminate.
  - pose proof (String.compare_antisym b b) as Ha. rewrite E in Ha. discriminate.
Qed.

Lemma map_get_set {A} (m : list (string * A)) (k k' : string) (v : A) :
  map_get (map_set m k v) k' = if String.eqb k' k then Some v else map_get m k'.
Proof.
  induction m as [|[k0 v0] m IH]; simpl.
  - destruct (String.eqb k' k); reflexivity.
  - destruct (String.compare k k0) eqn:E; simpl.
    + apply string_compare_eq in E. subst k0.
      destruct (String.eqb k' k); reflexivity.
    + destruct (String.eqb k' k); reflexivity.
    + rewrite IH. destruct (String.eqb k' k0) eqn:E0; [|reflexivity].
      apply String.eqb_eq in E0. subst k0.
      destruct (String.eqb k' k) eqn:E1; [|reflexivity].
      apply String.eqb_eq in E1. subst k'.
      assert (String.compare k k = Eq) as Hk by (apply string_compare_eq; reflexivity).
      congruence.
Qed.

(** ** Registration *)

Lemma Register_duplicate r name h opts :
  is_Some (commands r !! name) ->
  Register r name h opts = Returns (VError (ErrAlreadyRegistered name), r).
Proof.
  intros Hs. unfold Register. rewrite bool_decide_eq_true_2 by assumption. reflexivity.
Qed.

Lemma Register_nil r name opts :
  commands r !! name = None ->
  Register r name NilHandler opts
  = Panics "reflect: call of reflect.Value.Type on zero Value".
Proof.
  intros Hn. unfold Register.
  rewrite bool_decide_eq_false_2 by (rewrite Hn; intros [? ?]; discriminate).
  reflexivity.
Qed.

(** What [Register] does with a handler that is some value of type [t]:
    a valid signature is stored under a fresh name, anything else is turned
    down with an error and the router is left alone. *)
Lemma Register_typed r name h t opts :
  commands r !! name = None ->
  TypeOfHandler h = Returns t ->
  (validSignature t /\
   Register r name h opts
   = Returns (VNil, {| commands :=
        <[name := {| metadata := metadataOf name opts;
                     handler := h;
                     argType := argTypeOf t |}]> (commands r) |}))
  \/ (~ validSignature t /\
      exists e, Register r name h opts = Returns (VError e, r)).
Proof.
  intros Hn Ht. unfold Register.
  rewrite bool_decide_eq_false_2 by (rewrite Hn; intros [? ?]; discriminate).
  rewrite Ht. cbn [mbind outcome_bind].
  destruct (bool_decide (KindOf t = KFunc)) eqn:Hk; cbn [negb].
  2:{ right. apply bool_decide_eq_false in Hk. split; [|eauto].
      intros (Hf & _). contradiction. }
  apply bool_decide_eq_true in Hk.
  destruct ((NumIn t <? 1)%nat || (2 <? NumIn t)%nat) eqn:Hin.
  { right. split; [|eauto]. intros (_ & Hr & _).
    apply orb_true_iff in Hin as [Hin|Hin]; apply Nat.ltb_lt in Hin; lia. }
  apply orb_false_iff in Hin as [Hin1 Hin2].
  apply Nat.ltb_ge in Hin1, Hin2.
  destruct (NumOut t =? 2)%nat eqn:Hout; cbn [negb].
  2:{ right. apply Nat.eqb_neq in Hout. split; [|eauto].
      intros (_ & _ & _ & Ho & _). contradiction. }
  apply Nat.eqb_eq in Hout.
  unfold TypeIn, TypeOut, NumIn, NumOut in *.
  destruct (ins t) as [|c rest] eqn:Hins; [simpl in Hin1; lia|].
  destruct (outs t) as [|o0 [|o1 [|? ?]]] eqn:Houts; try discriminate Hout.
  cbn [lookup list_lookup mbind outcome_bind].
  destruct (bool_decide (KindOf c = KPointer)) eqn:Hc; cbn [negb].
  2:{ right. apply bool_decide_eq_false in Hc. split; [|eauto].
      intros (_ & _ & (c' & Hc' & Hp & _) & _).
      rewrite Hins in Hc'. cbn in Hc'. injection Hc' as <-. contradiction. }
  apply bool_decide_eq_true in Hc.
  destruct (Elem_of_pointer c Hc) as [e He]. rewrite He.
  cbn [mbind outcome_bind mret outcome_ret].
  destruct (String.eqb (Name e) "Context") eqn:Hname; cbn [negb].
  2:{ right. apply String.eqb_neq in Hname. split; [|eauto].
      intros (_ & _ & (c' & Hc' & _ & e' & He' & Hn') & _).
      rewrite Hins in Hc'. cbn in Hc'. injection Hc' as <-.
      rewrite He in He'. injection He' as <-.
      contradiction. }
  apply String.eqb_eq in Hname.
  destruct (ImplementsError o1) eqn:Herr; cbn [negb].
  2:{ right. split; [|eauto].
      intros (_ & _ & _ & _ & e' & He' & Hi).
      rewrite Houts in He'. cbn in He'. injection He' as <-. congruence. }
  left. split.
  { repeat split; try assumption; unfold NumIn, NumOut; rewrite ?Hins, ?Houts;
      try assumption; try reflexivity.
    - exists c. split; [reflexivity|]. split; [assumption|]. eauto.
    - exists o1. split; [reflexivity|assumption]. }
  unfold argTypeOf, metadataOf. rewrite Hins.
  destruct rest as [|a [|? ?]]; simpl in Hin2; try lia; cbn.
  - reflexivity.
  - destruct (bool_decide (KindOf a = KPointer)) eqn:Ha; [|reflexivity].
    apply bool_decide_eq_true in Ha.
    destruct (Elem_of_pointer a Ha) as [ea Hea]. rewrite Hea. reflexivity.
Qed.

Lemma Register_cases r name t code opts :
  commands r !! name = None ->
  (validSignature t /\
   Register r name (HandlerOf t code) opts
   = Returns (VNil, {| commands :=
        <[name := {| metadata := metadataOf name opts;
                     handler := HandlerOf t code;
                     argType := argTypeOf t |}]> (commands r) |}))
  \/ (~ validSignature t /\
      exists e, Register r name (HandlerOf t code) opts = Returns (VError e, r)).
Proof. intros Hn. apply Register_typed; [exact Hn|reflexivity]. Qed.

(** C1. [Register] is documented to return an error when the handler
    signature is invalid, and the claim says that every handler that is not
    a function of the accepted shape is turned down with such an error.  A
    nil handler is not a function, yet for it [Register] does not return:
    taking the type of the zero [reflect.Value] panics.  (For every handler
    that is a value, [Register_cases] shows the claimed equivalence.) *)
Theorem Register_nil_handler_panics :
  Register NewCommandRouter "hello" NilHandler []
  = Panics "reflect: call of reflect.Value.Type on zero Value".
Proof. reflexivity. Qed.

(** C10. The context parameter is recognised by the name of the pointed-to
    type alone.  Under a fresh name and with the other three conditions met,
    a handler is accepted as soon as its first input is of pointer kind and
    the element type is called "Context", whichever package declares it; and
    every function handler whose first input is not a pointer, or points to a
    type with another name, is turned down and the router left alone, the
    SDK's own Context passed by value included. *)
Theorem context_identified_by_name (r : CommandRouter) (name : string)
    (code : gofunc) (opts : list CommandOption) :
  commands r !! name = None ->
  (forall t c rest o0 o1,
      KindOf t = KFunc -> ins t = c :: rest -> (length rest <= 1)%nat ->
      outs t = [o0; o1] -> ImplementsError o1 = true ->
      contextParameter c ->
      exists r', Register r name (HandlerOf t code) opts = Returns (VNil, r')
        /\ exists cmd, commands r' !! name = Some cmd
                       /\ handler cmd = HandlerOf t code)
  /\ (forall pkg under ev ep rest o0 o1,
        (length rest <= 1)%nat -> ImplementsError o1 = true ->
        exists r',
          Register r name
            (HandlerOf (TFunc (TPtr (TNamed pkg "Context" under ev ep) :: rest) [o0; o1])
               code) opts
          = Returns (VNil, r')
          /\ is_Some (commands r' !! name))
  /\ (forall t c rest,
        KindOf t = KFunc -> ins t = c :: rest -> ~ contextParameter c ->
        exists e, Register r name (HandlerOf t code) opts = Returns (VError e, r))
  /\ Register r name (HandlerOf (TFunc [ContextType] [TInterface; TError]) code) opts
     = Returns (VError (ErrFirstArgument ContextType), r).
Proof.
  intros Hfresh.
  assert (Haccept : forall t c rest o0 o1,
      KindOf t = KFunc -> ins t = c :: rest -> (length rest <= 1)%nat ->
      outs t = [o0; o1] -> ImplementsError o1 = true ->
      contextParameter c ->
      exists r', Register r name (HandlerOf t code) opts = Returns (VNil, r')
        /\ exists cmd, commands r' !! name = Some cmd
                       /\ handler cmd = HandlerOf t code).
  { intros t c rest o0 o1 Hk Hins Hlen Houts Herr Hctx.
    destruct (Register_cases r name t code opts Hfresh) as [[_ Hreg]|[Hbad _]].
    - eexists. split; [exact Hreg|]. eexists. split.
      + cbn. apply lookup_insert_eq.
      + reflexivity.
    - exfalso. apply Hbad. unfold validSignature, NumIn, NumOut.
      rewrite Hins, Houts. cbn [length lookup list_lookup].
      repeat split; try assumption; try lia; eauto. }
  split; [exact Haccept|]. split; [|split].
  - intros pkg under ev ep rest o0 o1 Hlen Herr.
    destruct (Haccept (TFunc (TPtr (TNamed pkg "Context" under ev ep) :: rest) [o0; o1])
                (TPtr (TNamed pkg "Context" under ev ep)) rest o0 o1)
      as (r' & Hreg & cmd & Hcmd & _); try reflexivity; try assumption.
    { split; [reflexivity|]. eexists. split; reflexivity. }
    exists r'. split; [assumption|]. rewrite Hcmd. eauto.
  - intros t c rest Hk Hins Hbad.
    destruct (Register_cases r name t code opts Hfresh) as [[Hv _]|[_ He]]; [|exact He].
    exfalso. apply Hbad.
    destruct Hv as (_ & _ & (c' & Hc' & Hctx) & _).
    rewrite Hins in Hc'. cbn in Hc'. injection Hc' as <-. exact Hctx.
  - unfold Register.
    rewrite bool_decide_eq_false_2 by (rewrite Hfresh; intros [? ?]; discriminate).
    reflexivity.
Qed.

Lemma context_identified_by_name_witness :
  commands NewCommandRouter !! "play" = None
  /\ Register NewCommandRouter "play"
       (HandlerOf (TFunc [ContextType] [TInterface; TError]) (fun _ => Returns [VNil; VNil]))
       []
     = Returns (VError (ErrFirstArgument ContextType), NewCommandRouter).
Proof.
  split; [reflexivity|].
  apply (context_identified_by_name NewCommandRouter "play" (fun _ => Returns [VNil; VNil]) []).
  reflexivity.
Defined.

(** ** The registry *)

Lemma Register_keeps r name h opts k cmd :
  commands r !! k = Some cmd ->
  commands (routerAfter r (Register r name h opts)) !! k = Some cmd.
Proof.
  intros Hk.
  destruct (commands r !! name) eqn:Hname.
  - rewrite Register_duplicate by eauto. exact Hk.
  - destruct (TypeOfHandler h) as [t|why] eqn:Ht.
    + destruct (Register_typed r name h t opts Hname Ht) as [[_ ->]|[_ [e ->]]].
      * cbn. rewrite lookup_insert_ne; [exact Hk|]. intros ->. congruence.
      * exact Hk.
    + destruct h; try discriminate Ht. rewrite Register_nil by assumption. exact Hk.
Qed.

(** C5. The registry only grows.  Registering a name that is taken returns
    the already-registered error and leaves the router as it was, whatever
    the handler; and after any sequence of operations a name still maps to
    the command first stored under it. *)
Theorem registry_append_only (r : CommandRouter) (name : string) (cmd : registeredCommand) :
  commands r !! name = Some cmd ->
  (forall h opts,
      Register r name h opts = Returns (VError (ErrAlreadyRegistered name), r))
  /\ (forall ops, commands (fold_left perform ops r) !! name = Some cmd).
Proof.
  intros Hcmd. split.
  - intros h opts. apply Register_duplicate. eauto.
  - intros ops. revert r Hcmd.
    induction ops as [|op ops IH]; intros r Hcmd; [exact Hcmd|].
    cbn [fold_left]. apply IH.
    destruct op; cbn [perform]; try exact Hcmd.
    apply Register_keeps. exact Hcmd.
Qed.

Lemma registry_append_only_witness :
  Register oneCommand "ping" secondHandler [WithDescription "again"]
  = Returns (VError (ErrAlreadyRegistered "ping"), oneCommand)
  /\ handler <$> commands
       (fold_left perform
          [OpRegister "ping" secondHandler []; OpRegister "pong" secondHandler [];
           OpRoute (VPtr None) "ping" []; OpCommandCount]
          oneCommand) !! "ping"
     = Some firstHandler.
Proof.
  assert (Hc : commands oneCommand !! "ping"
               = Some {| metadata := metadataOf "ping" [];
                         handler := firstHandler; argType := None |})
    by (vm_compute; reflexivity).
  destruct (registry_append_only oneCommand "ping" _ Hc) as [Hdup Hkeep].
  split; [apply Hdup|]. rewrite Hkeep. reflexivity.
Defined.

(** ** The source object of the binder *)









(** ** Routing *)

Section routing_properties.
Context `{Unicode}.

(** C9. Routing a name that is not registered returns no result and the
    unknown-command error, and enters no handler body. *)
Theorem Route_unknown_command (r : CommandRouter) (ctx : value) (command : string)
    (args : list value) :
  commands r !! command = None ->
  Route r ctx command args = Run [] (Returns (VNil, VError (ErrUnknownCommand command))).
Proof. intros Hnone. unfold Route. rewrite Hnone. reflexivity. Qed.

End routing_properties.

Lemma Route_unknown_command_witness :
  commands oneCommand !! "pong" = None
  /\ @Route asciiUnicode oneCommand (VPtr None) "pong" [VInt 1]
     = Run [] (Returns (VNil, VError (ErrUnknownCommand "pong"))).
Proof.
  split; [vm_compute; reflexivity|].
  apply (@Route_unknown_command asciiUnicode). vm_compute. reflexivity.
Defined.



Section binder_properties.
Context `{Unicode}.



End binder_properties.



Example echo_positional :
  @Route asciiUnicode echoRouter someContext "echo" [VInt 5]
  = Run [[someContext; VPtr (Some (VStruct [("a", VInt 5); ("b", VInt 0)]))]]
        (Returns (VPtr (Some (VStruct [("a", VInt 5); ("b", VInt 0)])), VNil)).
Proof. vm_compute. reflexivity. Qed.

Example echo_keyed :
  @Route asciiUnicode echoRouter someContext "echo" [VMap [("b", VFloat 7)]]
  = Run [[someContext; VPtr (Some (VStruct [("a", VInt 0); ("b", VInt 7)]))]]
        (Returns (VPtr (Some (VStruct [("a", VInt 0); ("b", VInt 7)])), VNil)).
Proof. vm_compute. reflexivity. Qed.

(** ** Invocation *)

Lemma IsNil_zero (o : rtype) (v : value) :
  hasNil (KindOf o) = true ->
  exists b, IsNil (RValue o v) = Returns b /\ (b = true <-> v = zero o).
Proof.
  unfold IsNil. cbn [rv_type rv_val].
  induction o; cbn [KindOf zero hasNil]; intros Hk; try discriminate Hk;
    try (apply IHo; exact Hk).
  all: eexists; split; [reflexivity|].
  all: split; [|intros ->; reflexivity].
  all: destruct v as [| | | | | | | | | |[?|]| |[|]|]; try discriminate; reflexivity.
Qed.

Lemma zero_struct (t : rtype) :
  KindOf t = KStruct ->
  exists fs, underlying t = TStruct fs
             /\ zero t = VStruct (List.map (fun f => (fst f, zero (snd f))) fs).
Proof.
  induction t; cbn [KindOf underlying zero]; intros Hk; try discriminate Hk.
  - eexists. split; reflexivity.
  - apply IHt. exact Hk.
Qed.

Lemma firstMismatch_None (args : list rvalue) (params : list rtype) :
  length args = length params ->
  firstMismatch args params = None <-> assignableAll args params = true.
Proof.
  revert params. induction args as [|a args IH]; intros [|p params] Hlen;
    try discriminate Hlen; [split; reflexivity|].
  cbn [firstMismatch assignableAll].
  destruct (AssignableTo (rv_type a) p); cbn [andb].
  - apply IH. cbn in Hlen. lia.
  - split; discriminate.
Qed.

Section invocation_properties.
Context `{Unicode}.

Lemma decode_underlying (j : json) (t : rtype) (cur : value) :
  decode j t cur = decode j (underlying t) cur.
Proof.
  induction t; try reflexivity.
  destruct j; cbn [decode underlying]; exact IHt.
Qed.

Lemma Call_cases (h : CommandHandler) (args : list rvalue) :
  (exists why, Call h args = Run [] (Panics why))
  \/ (exists t code,
        h = HandlerOf t code /\ KindOf t = KFunc
        /\ length args = NumIn t /\ assignableAll args (ins t) = true
        /\ Call h args
           = Run [List.map rv_val args]
                 (results ← code (List.map rv_val args);
                  mret (zip_with RValue (outs t) results))).
Proof.
  destruct h as [|t code|t]; [left; eexists; reflexivity| |].
  2:{ left. unfold Call. destruct (negb (bool_decide (KindOf t = KFunc)));
        eexists; reflexivity. }
  unfold Call.
  destruct (bool_decide (KindOf t = KFunc)) eqn:Hk; cbn [negb];
    [|left; eexists; reflexivity].
  destruct (length args <? NumIn t)%nat eqn:Hlt; [left; eexists; reflexivity|].
  destruct (NumIn t <? length args)%nat eqn:Hgt; [left; eexists; reflexivity|].
  apply Nat.ltb_ge in Hlt, Hgt.
  assert (Hlen : length args = NumIn t) by lia.
  destruct (firstMismatch args (ins t)) as [[given wanted]|] eqn:Hasg;
    [left; eexists; reflexivity|].
  right. exists t, code. apply bool_decide_eq_true in Hk.
  apply (firstMismatch_None args (ins t) Hlen) in Hasg.
  repeat split; try assumption.
Qed.

Lemma returnValues_pair (o0 o1 : rtype) (res err : value) :
  ImplementsError o1 = true ->
  hasNil (KindOf o0) = true ->
  hasNil (KindOf o1) = true ->
  exists result e,
    returnValues [RValue o0 res; RValue o1 err] = Returns (result, e)
    /\ (res = zero o0 -> result = VNil) /\ (res <> zero o0 -> result = res)
    /\ (err = zero o1 -> e = VNil) /\ (err <> zero o1 -> e = err).
Proof.
  intros Herr Hk0 Hk1. unfold returnValues.
  destruct (IsNil_zero o0 res Hk0) as (b0 & Hn0 & Hz0).
  destruct (IsNil_zero o1 err Hk1) as (b1 & Hn1 & Hz1).
  rewrite Hn0, Hn1. unfold assertError. cbn [rv_type rv_val]. rewrite Herr.
  cbn [orb mbind outcome_bind mret outcome_ret].
  eexists _, _. split; [reflexivity|].
  destruct b0, b1; repeat split; intros Hx; try reflexivity;
    try (apply Hz0 in Hx; discriminate Hx); try (apply Hz1 in Hx; discriminate Hx);
    try (exfalso; apply Hx; first [apply Hz0 | apply Hz1]; reflexivity).
Qed.

(** Where the normalization works.  Take a call of [Route] that entered
    the handler's body, and let the body return [res] and [err].  When both
    result types of the handler are of a kind that has a nil (interface,
    pointer, map, slice, channel, function: the documented signatures return
    [interface{}] or [*R], and [error]), [Route] returns the two outputs,
    each replaced by the nil interface when it is the zero value of its type
    and passed on as it is otherwise. *)
Lemma Route_normalizes_outputs (r : CommandRouter) (ctx : value) (command : string)
    (args : list value) (cmd : registeredCommand) (t : rtype) (code : gofunc)
    (a : invocation) (o0 o1 : rtype) (res err : value) :
  commands r !! command = Some cmd ->
  handler cmd = HandlerOf t code ->
  calls (Route r ctx command args) = [a] ->
  code a = Returns [res; err] ->
  outs t = [o0; o1] ->
  ImplementsError o1 = true ->
  hasNil (KindOf o0) = true ->
  hasNil (KindOf o1) = true ->
  exists result e,
    final (Route r ctx command args) = Returns (result, e)
    /\ (res = zero o0 -> result = VNil) /\ (res <> zero o0 -> result = res)
    /\ (err = zero o1 -> e = VNil) /\ (err <> zero o1 -> e = err).
Proof.
  intros Hcmd Hh Hcalls Hcode Houts Herr Hk0 Hk1.
  unfold Route in *. rewrite Hcmd in *.
  unfold invokeHandler in *. rewrite Hh in *.
  cbn [TypeOfHandler lift mbind run_bind final calls app] in *.
  destruct (bindArguments cmd t args) as [argPtr|e]; [|discriminate Hcalls].
  destruct (Call_cases (HandlerOf t code) (RValue ContextPtr ctx :: argPtr))
    as [[why Hcall]|(t' & code' & Heq & _ & _ & _ & Hcall)];
    rewrite Hcall in *; cbn [final calls] in *; [discriminate Hcalls|].
  injection Heq as <- <-.
  assert (Ha : a = List.map rv_val (RValue ContextPtr ctx :: argPtr)).
  { destruct (code (List.map rv_val (RValue ContextPtr ctx :: argPtr)));
      cbn [mbind outcome_bind mret outcome_ret lift calls app] in Hcalls;
      injection Hcalls as <-; reflexivity. }
  subst a. rewrite Hcode. cbn [mbind outcome_bind mret outcome_ret].
  rewrite Houts. cbn [zip_with lift final].
  apply returnValues_pair; assumption.
Qed.

(** Where the pointer is accepted.  Take a command with a typed argument
    whose handler is a function, not nil, with inputs that accept the SDK's
    [*Context] and a pointer to the argument type.  Routed with no raw
    values, the handler's body is entered, and its second argument is a
    non-nil pointer to the zero value of the argument type; for a struct type
    that is also what an empty keyed object is coerced to. *)
Lemma empty_args_zero_value (r : CommandRouter) (ctx : value) (command : string)
    (cmd : registeredCommand) (t : rtype) (code : gofunc) (argT c a : rtype) :
  commands r !! command = Some cmd ->
  handler cmd = HandlerOf t code ->
  argType cmd = Some argT ->
  KindOf t = KFunc ->
  ins t = [c; a] ->
  AssignableTo ContextPtr c = true ->
  AssignableTo (TPtr argT) a = true ->
  calls (Route r ctx command []) = [[ctx; VPtr (Some (zero argT))]]
  /\ (KindOf argT = KStruct -> unmarshal (JObject []) argT = Ok (zero argT)).
Proof.
  intros Hcmd Hh Harg Hk Hins Hc Ha. split.
  - unfold Route. rewrite Hcmd. unfold invokeHandler, bindArguments.
    rewrite Hh, Harg. cbn [TypeOfHandler lift mbind run_bind final calls app].
    unfold NumIn. rewrite Hins. cbn [length Nat.eqb Nat.ltb Nat.leb].
    unfold Call, NumIn. rewrite Hins, Hk.
    rewrite bool_decide_eq_true_2 by reflexivity.
    cbn [negb length Nat.ltb Nat.leb firstMismatch rv_type].
    rewrite Hc, Ha. cbn [final calls List.map rv_val].
    destruct (code [ctx; VPtr (Some (zero argT))]) as [results|why];
      cbn [mbind outcome_bind mret outcome_ret lift final calls app]; reflexivity.
  - intros Hs. unfold unmarshal. rewrite decode_underlying.
    destruct (zero_struct argT Hs) as (fs & -> & ->). reflexivity.
Qed.

End invocation_properties.

(** C4. [invokeHandler] normalizes each output by asking [IsNil] of it, and
    [IsNil] panics on a kind that has no nil.  [Register] checks neither the
    kind of the first result nor that of the second: a handler
    [func(ctx *Context) (string, error)] is registered without complaint,
    its body is entered and returns [("hello", nil)], and [Route] panics
    on the first output instead of returning the two. *)
Theorem Route_string_result_panics :
  Register NewCommandRouter "greet" greetHandler [] = Returns (VNil, greetRouter)
  /\ calls (@Route asciiUnicode greetRouter someContext "greet" []) = [[someContext]]
  /\ final (@Route asciiUnicode greetRouter someContext "greet" [])
     = Panics "reflect: call of reflect.Value.IsNil on string Value".
Proof. vm_compute. repeat split; reflexivity. Qed.

(** The same on the second output: a struct type with the method
    [Error() string] implements [error], the handler is accepted, and the
    error it returns is never passed on. *)
Example Route_struct_error_panics :
  Register NewCommandRouter "fail" failHandler [] = Returns (VNil, failRouter)
  /\ calls (@Route asciiUnicode failRouter someContext "fail" []) = [[someContext]]
  /\ final (@Route asciiUnicode failRouter someContext "fail" [])
     = Panics "reflect: call of reflect.Value.IsNil on struct Value".
Proof. vm_compute. repeat split; reflexivity. Qed.

Example Route_normalizes_outputs_example :
  final (@Route asciiUnicode echoRouter someContext "echo" [VInt 5])
  = Returns (VPtr (Some (VStruct [("a", VInt 5); ("b", VInt 0)])), VNil).
Proof.
  destruct (@Route_normalizes_outputs asciiUnicode echoRouter someContext "echo" [VInt 5]
              {| metadata := metadataOf "echo" [WithParameters twoParameters];
                 handler := echoHandler; argType := Some ArgsType |}
              (TFunc [ContextPtr; TPtr ArgsType] [TInterface; TError]) echo
              [someContext; VPtr (Some (VStruct [("a", VInt 5); ("b", VInt 0)]))]
              TInterface TError
              (VPtr (Some (VStruct [("a", VInt 5); ("b", VInt 0)]))) VNil)
    as (result & e & Hfinal & _ & Hres & Herr & _);
    [vm_compute; reflexivity ..|].
  rewrite Hfinal. rewrite Hres by discriminate. rewrite Herr by reflexivity.
  reflexivity.
Qed.

(** C8. [Register] accepts a handler whose second input is not a pointer
    and records that type itself as the argument type, yet [invokeHandler]
    always passes [reflect.New(argType)], a pointer.  For
    [func(ctx *Context, name string) (interface{}, error)] the argument type
    recorded is [string]; routed with no raw values, [Route] hands the call a
    [*string] and panics before the body is entered. *)
Theorem empty_args_value_parameter_panics :
  Register NewCommandRouter "hello" nameHandler [] = Returns (VNil, nameRouter)
  /\ argType <$> commands nameRouter !! "hello" = Some (Some TString)
  /\ @Route asciiUnicode nameRouter someContext "hello" []
     = Run [] (Panics (CallUsing (TPtr TString) TString)).
Proof. vm_compute. repeat split; reflexivity. Qed.

(** So does every call of that command: with arguments the binder fails or
    the call panics, and the body is never entered. *)
Example value_parameter_never_entered :
  calls (@Route asciiUnicode nameRouter someContext "hello" [VString "Ann"]) = []
  /\ calls (@Route asciiUnicode nameRouter someContext "hello"
              [VMap [("name", VString "Ann")]]) = [].
Proof. vm_compute. split; reflexivity. Qed.

(** Another package's [*Context] passes the validation by its name, and the
    call with the SDK's context then panics on the argument type. *)
Example foreign_context_panics :
  Register NewCommandRouter "other" foreignHandler [] = Returns (VNil, foreignRouter)
  /\ @Route asciiUnicode foreignRouter someContext "other" []
     = Run [] (Panics (CallUsing ContextPtr
                         (TPtr (TNamed "example.com/other" "Context" (TStruct [])
                                       false false)))).
Proof. vm_compute. split; reflexivity. Qed.

Example empty_args_zero_value_example :
  calls (@Route asciiUnicode echoRouter someContext "echo" [])
  = [[someContext; VPtr (Some (VStruct [("a", VInt 0); ("b", VInt 0)]))]]
  /\ @unmarshal asciiUnicode (JObject []) ArgsType
     = Ok (VStruct [("a", VInt 0); ("b", VInt 0)]).
Proof.
  destruct (@empty_args_zero_value asciiUnicode echoRouter someContext "echo"
              {| metadata := metadataOf "echo" [WithParameters twoParameters];
                 handler := echoHandler; argType := Some ArgsType |}
              (TFunc [ContextPtr; TPtr ArgsType] [TInterface; TError]) echo
              ArgsType ContextPtr (TPtr ArgsType))
    as [Hcalls Hzero]; [vm_compute; reflexivity ..|].
  split; [exact Hcalls|]. apply Hzero. reflexivity.
Qed.

(** ** Coercion through the open representation *)

Section coercion_facts.
Context `{Unicode}.






End coercion_facts.





Section field_facts.
Context `{Unicode}.





End field_facts.

Section round_trip.
Context `{Unicode}.

Lemma marshal_map (m : list (string * value)) :
  marshal (VMap m)
  = (ms ← marshalEntries m;
     Ok (JObject (List.map (fun kj => (toValidUTF8 (fst kj), snd kj)) (sortKeys ms)))).
Proof.
  cbn [marshal].
  assert (He : (fix entries (m0 : list (string * value)) :
                   result jsonerror (list (string * json)) :=
                  match m0 with
                  | [] => Ok []
                  | kv :: m' =>
                      marshal kv.2 ≫= λ j : json, entries m' ≫= λ ms : list (string * json), Ok ((kv.1, j) :: ms)
                  end) m = marshalEntries m).
  { induction m as [|kv m IH]; [reflexivity|]. cbn [marshalEntries]. rewrite <- IH. reflexivity. }
  rewrite He. reflexivity.
Qed.


Lemma plainValue_matchesShape (t : rtype) : forall v, plainValue t v -> matchesShape t v.
Proof.
  induction t using rtype_nested_ind; cbn [plainValue matchesShape]; intros v Hv;
    try contradiction.
  - exact Hv.
  - exact Hv.
  - destruct Hv as (q & -> & Hq & _). left. eauto.
  - destruct Hv as (s & -> & _). eauto.
  - destruct Hv as [->|(_ & x & -> & Hx)]; [left; reflexivity|]. right. eauto.
  - destruct Hv as (_ & vs & -> & Hfs). exists vs. split; [reflexivity|].
    revert vs Hfs. induction H0 as [|f fs Hf _ IH]; intros [|x vs] Hfs; try contradiction;
      [exact I|].
    destruct Hfs as (Hk & _ & Hx & Hrest). split; [exact Hk|]. split; [apply Hf; exact Hx|].
    apply IH. exact Hrest.
  - apply IHt. exact Hv.
Qed.







End round_trip.

(** ** Binding through coercion *)


Section binding_theorems.
Context `{Unicode}.



(** Once the arguments are bound, the handler's body is entered at most
    once, with the context and the bound argument; it is entered when the
    handler is a function whose inputs accept them. *)
Lemma invokeHandler_calls (ctx : value) (cmd : registeredCommand) (t : rtype)
    (code : gofunc) (args : list value) (argPtr : list rvalue) :
  handler cmd = HandlerOf t code ->
  bindArguments cmd t args = Ok argPtr ->
  (forall inv, inv ∈ calls (invokeHandler ctx cmd args) ->
               inv = ctx :: List.map rv_val argPtr)
  /\ (KindOf t = KFunc -> length argPtr = pred (NumIn t) -> (0 < NumIn t)%nat ->
      assignableAll (RValue ContextPtr ctx :: argPtr) (ins t) = true ->
      calls (invokeHandler ctx cmd args) = [ctx :: List.map rv_val argPtr]).
Proof.
  intros Hh Hbind. unfold invokeHandler. rewrite Hh.
  cbn [TypeOfHandler lift mbind run_bind final calls app]. rewrite Hbind.
  assert (Hentered :
    calls (Run [List.map rv_val (RValue ContextPtr ctx :: argPtr)]
             (results ← code (List.map rv_val (RValue ContextPtr ctx :: argPtr));
              mret (zip_with RValue (outs t) results))
           ≫= λ results, lift (returnValues results))
    = [ctx :: List.map rv_val argPtr]).
  { cbn [mbind run_bind final calls].
    destruct (code (List.map rv_val (RValue ContextPtr ctx :: argPtr)));
      cbn [mbind outcome_bind mret outcome_ret lift calls app]; reflexivity. }
  split.
  - intros inv Hin.
    destruct (Call_cases (HandlerOf t code) (RValue ContextPtr ctx :: argPtr))
      as [[why Hcall]|(t' & code' & Heq & _ & _ & _ & Hcall)]; rewrite Hcall in Hin.
    + cbn in Hin. inversion Hin.
    + injection Heq as <- <-. rewrite Hentered in Hin.
      apply list_elem_of_singleton in Hin. exact Hin.
  - intros Hk Hlen Hpos Hasg. unfold Call.
    rewrite bool_decide_eq_true_2 by exact Hk. cbn [negb length].
    rewrite Hlen.
    replace (S (pred (NumIn t)) <? NumIn t)%nat with false
      by (symmetry; apply Nat.ltb_ge; lia).
    replace (NumIn t <? S (pred (NumIn t)))%nat with false
      by (symmetry; apply Nat.ltb_ge; lia).
    assert (Hfm : firstMismatch (RValue ContextPtr ctx :: argPtr) (ins t) = None).
    { apply firstMismatch_None; [|exact Hasg].
      cbn [length]. rewrite Hlen. unfold NumIn in *. lia. }
    rewrite Hfm. exact Hentered.
Qed.




End binding_theorems.



(** Nor is a [float64] field that holds NaN reproduced: the keyed object
    matches the shape, the encoder refuses the value, and the handler is not
    entered. *)
Example nan_field_not_bound :
  matchesShape PointType (VStruct [("x", VNonFinite NaN)])
  /\ @Route asciiUnicode pointRouter someContext "point" [VMap [("x", VNonFinite NaN)]]
     = Run [] (Returns (VNil, VError (ErrMarshal (UnsupportedValueError "NaN")))).
Proof.
  split; [cbn; eexists; split; [reflexivity|]; cbn; eauto|].
  vm_compute. reflexivity.
Qed.

(** A [float64] of 2^53 or more is written with its shortest digits, which
    need not be its own: 2^60 is written as 1152921504606847000, which reads
    back as 2^60. *)
Example float_shortest_digits :
  @marshal asciiUnicode (VFloat (inject_Z (2 ^ 60))) = Ok (JInt 1152921504606847000)
  /\ @unmarshal asciiUnicode (JInt 1152921504606847000) TFloat64
     = Ok (VFloat (inject_Z (2 ^ 60)))
  /\ @unmarshal asciiUnicode (JInt 1152921504606847000) TInt
     = Ok (VInt 1152921504606847000).
Proof. vm_compute. repeat split; reflexivity. Qed.

(** A finite [float64] field is reproduced, also one of 2^53 or more. *)
Example float_field_reproduced :
  calls (@Route asciiUnicode pointRouter someContext "point" [VMap [("x", VFloat (3 # 2))]])
  = [[someContext; VPtr (Some (VStruct [("x", VFloat (3 # 2))]))]]
  /\ calls (@Route asciiUnicode pointRouter someContext "point"
              [VMap [("x", VFloat (inject_Z (2 ^ 60)))]])
     = [[someContext; VPtr (Some (VStruct [("x", VFloat (inject_Z (2 ^ 60)))]))]].
Proof. vm_compute. split; reflexivity. Qed.

(** A number that does not parse as an [int] is reported with its text. *)
Example fraction_into_int :
  @Route asciiUnicode echoRouter someContext "echo" [VMap [("a", VFloat (3 # 2))]]
  = Run [] (Returns (VNil, VError (ErrUnmarshal "Args"
                                     (UnmarshalTypeError "number 1.5" TInt)))).
Proof. vm_compute. reflexivity. Qed.


(** ** Registration, seen from outside *)

Lemma Register_returns (r : CommandRouter) (name : string) (h : CommandHandler)
    (opts : list CommandOption) (err : value) (r' : CommandRouter) :
  Register r name h opts = Returns (err, r') ->
  (err = VNil /\ commands r !! name = None
   /\ exists t,
        TypeOfHandler h = Returns t /\ validSignature t
        /\ r' = {| commands :=
                     <[name := {| metadata := metadataOf name opts;
                                  handler := h; argType := argTypeOf t |}]> (commands r) |})
  \/ (r' = r /\ exists e, err = VError e).
Proof.
  intros Hreg. destruct (commands r !! name) as [old|] eqn:Hname.
  - rewrite Register_duplicate in Hreg by eauto. injection Hreg as <- <-.
    right. eauto.
  - destruct (TypeOfHandler h) as [t|why] eqn:Ht.
    + destruct (Register_typed r name h t opts Hname Ht) as [[Hv Hok]|[_ [e He]]].
      * rewrite Hok in Hreg. injection Hreg as <- <-. left.
        split; [reflexivity|]. split; [reflexivity|]. exists t.
        split; [reflexivity|]. split; [exact Hv|reflexivity].
      * rewrite He in Hreg. injection Hreg as <- <-. right. eauto.
    + destruct h; try discriminate Ht.
      rewrite Register_nil in Hreg by assumption. discriminate Hreg.
Qed.

(** X1. Under a free name, a handler that is a value of type [t] is accepted
    exactly when [t] is a function type with one or two inputs, the first a
    pointer to a type called Context, and two outputs, the second
    implementing error. *)
Theorem Register_accepts_exactly (r : CommandRouter) (name : string) (t : rtype)
    (code : gofunc) (opts : list CommandOption) :
  commands r !! name = None ->
  accepted (Register r name (HandlerOf t code) opts) = true <-> validSignature t.
Proof.
  intros Hname.
  destruct (Register_cases r name t code opts Hname) as [[Hv ->]|[Hbad [e ->]]].
  - split; [intros _; exact Hv|reflexivity].
  - split; [discriminate|]. intros Hv. contradiction.
Qed.

(** X2. What a returning [Register] has done: without error, the name was
    free, is now registered, the count has grown by one and every other name
    maps to what it did; with an error the router is untouched. *)
Theorem Register_effect (r : CommandRouter) (name : string) (h : CommandHandler)
    (opts : list CommandOption) (err : value) (r' : CommandRouter) :
  Register r name h opts = Returns (err, r') ->
  (err = VNil ->
     HasCommand r name = false /\ HasCommand r' name = true
     /\ CommandCount r' = S (CommandCount r)
     /\ forall k, k <> name -> commands r' !! k = commands r !! k)
  /\ (err <> VNil -> r' = r /\ exists e, err = VError e).
Proof.
  intros Hreg.
  destruct (Register_returns r name h opts err r' Hreg)
    as [(-> & Hname & t & _ & _ & ->)|(-> & e & ->)].
  - split; [|intros Hne; contradiction].
    intros _. unfold HasCommand, CommandCount. cbn [commands].
    rewrite Hname, lookup_insert_eq.
    split; [|split; [|split]].
    + apply bool_decide_eq_false_2. intros [? ?]. discriminate.
    + apply bool_decide_eq_true_2. eauto.
    + apply map_size_insert_None. exact Hname.
    + intros k Hk. apply lookup_insert_ne. congruence.
  - split; [discriminate|]. intros _. eauto.
Qed.

(** X3. The number of registered commands is the number of registrations
    that returned no error. *)
Theorem CommandCount_counts_registrations (r : CommandRouter) (ops : list operation) :
  CommandCount (fold_left perform ops r) = (CommandCount r + registrations r ops)%nat.
Proof.
  revert r. induction ops as [|op ops IH]; intros r; cbn [fold_left registrations]; [lia|].
  rewrite IH.
  assert (Hstep : CommandCount (perform r op)
                  = (CommandCount r
                     + match op with
                       | OpRegister name h opts =>
                           if accepted (Register r name h opts) then 1 else 0
                       | _ => 0
                       end)%nat).
  { destruct op as [name h opts| | | |]; cbn [perform]; try lia.
    destruct (Register r name h opts) as [[err r']|why] eqn:Hreg; cbn [routerAfter accepted];
      [|lia].
    destruct (Register_returns r name h opts err r' Hreg)
      as [(-> & Hname & t & _ & _ & ->)|(-> & e & ->)]; [|lia].
    unfold CommandCount. cbn [commands].
    rewrite map_size_insert_None by exact Hname. lia. }
  rewrite Hstep. lia.
Qed.

(** X4. [GetCommands] returns one metadata per registered command: as many
    as [CommandCount] says, each the metadata of a registered command, and
    none left out. *)
Theorem GetCommands_lists_registered (r : CommandRouter) :
  length (GetCommands r) = CommandCount r
  /\ forall m, m ∈ GetCommands r
               <-> exists name cmd, commands r !! name = Some cmd /\ metadata cmd = m.
Proof.
  unfold GetCommands, CommandCount. split.
  - rewrite List.length_map. apply length_map_to_list.
  - intros m. split.
    + intros Hin. apply list_elem_of_fmap in Hin as ([name cmd] & -> & Hin).
      apply elem_of_map_to_list in Hin. eauto.
    + intros (name & cmd & Hcmd & <-).
      apply list_elem_of_fmap. exists (name, cmd). split; [reflexivity|].
      apply elem_of_map_to_list. exact Hcmd.
Qed.

(** X5. Whatever operations a new router has gone through, every command
    it holds has a handler that is a value, not the nil interface, of a
    function type with a valid signature, and an argument type that is the
    one read off that type's second input. *)
Theorem registered_commands_valid (ops : list operation) (name : string)
    (cmd : registeredCommand) :
  commands (fold_left perform ops NewCommandRouter) !! name = Some cmd ->
  wellRegistered cmd.
Proof.
  assert (Hinv : forall ops r,
            (forall k c, commands r !! k = Some c -> wellRegistered c) ->
            forall k c, commands (fold_left perform ops r) !! k = Some c -> wellRegistered c).
  { clear. induction ops as [|op ops IH]; intros r Hr; [exact Hr|].
    cbn [fold_left]. apply IH.
    destruct op as [n h opts| | | |]; cbn [perform]; try exact Hr.
    destruct (Register r n h opts) as [[err r']|why] eqn:Hreg; cbn [routerAfter];
      [|exact Hr].
    destruct (Register_returns r n h opts err r' Hreg)
      as [(_ & _ & t & Ht & Hv & ->)|(-> & _)]; [|exact Hr].
    intros k c. cbn [commands]. intros Hk.
    apply lookup_insert_Some in Hk as [[_ <-]|[_ Hk]].
    - exists t. split; [exact Ht|]. split; [exact Hv|reflexivity].
    - eapply Hr. exact Hk. }
  apply Hinv. intros k c Hk. cbn in Hk. rewrite lookup_empty in Hk. discriminate Hk.
Qed.


(** ** Routing, seen from outside *)

Section routing_extras.
Context `{Unicode}.

Lemma bindArguments_length (cmd : registeredCommand) (t : rtype) (args : list value)
    (argPtr : list rvalue) :
  bindArguments cmd t args = Ok argPtr -> (length argPtr <= 1)%nat.
Proof.
  unfold bindArguments. intros Hb.
  destruct (argType cmd) as [argT|]; [|injection Hb as <-; cbn; lia].
  destruct (NumIn t =? 2)%nat; [|injection Hb as <-; cbn; lia].
  destruct (0 <? length args)%nat; [|injection Hb as <-; cbn; lia].
  destruct (marshal _) as [j|]; [|discriminate Hb].
  destruct (unmarshal j argT); [|discriminate Hb].
  injection Hb as <-. cbn. lia.
Qed.

Lemma bindArguments_error (cmd : registeredCommand) (t : rtype) (args : list value)
    (e : goerror) :
  bindArguments cmd t args = Err e ->
  (exists c, e = ErrMarshal c) \/ (exists n c, e = ErrUnmarshal n c).
Proof.
  unfold bindArguments. intros Hb.
  destruct (argType cmd) as [argT|]; [|discriminate Hb].
  destruct (NumIn t =? 2)%nat; [|discriminate Hb].
  destruct (0 <? length args)%nat; [|discriminate Hb].
  destruct (marshal _) as [j|c]; [|injection Hb as <-; eauto].
  destruct (unmarshal j argT) as [v|c]; [discriminate Hb|].
  injection Hb as <-. eauto.
Qed.

(** How a call of [invokeHandler] can go: the handler is the nil
    interface, or binding fails, or the call panics before a body is entered
    (a nil function, inputs that do not accept the arguments), or the body is
    entered once with the context and the bound argument. *)
Lemma invokeHandler_cases (ctx : value) (cmd : registeredCommand) (args : list value) :
  (handler cmd = NilHandler
   /\ exists why, invokeHandler ctx cmd args = Run [] (Panics why))
  \/ (exists t e,
        TypeOfHandler (handler cmd) = Returns t /\ bindArguments cmd t args = Err e
        /\ invokeHandler ctx cmd args = Run [] (Returns (VNil, VError e)))
  \/ (exists t argPtr why,
        TypeOfHandler (handler cmd) = Returns t /\ bindArguments cmd t args = Ok argPtr
        /\ invokeHandler ctx cmd args = Run [] (Panics why))
  \/ (exists t code argPtr,
        handler cmd = HandlerOf t code /\ bindArguments cmd t args = Ok argPtr
        /\ calls (invokeHandler ctx cmd args) = [ctx :: List.map rv_val argPtr]
        /\ final (invokeHandler ctx cmd args)
           = (results ← code (ctx :: List.map rv_val argPtr);
              returnValues (zip_with RValue (outs t) results))).
Proof.
  destruct (TypeOfHandler (handler cmd)) as [t|why0] eqn:Ht.
  2:{ left. destruct (handler cmd) eqn:Hh; try discriminate Ht.
      split; [reflexivity|]. unfold invokeHandler. rewrite Hh. eexists. reflexivity. }
  right. unfold invokeHandler. rewrite Ht.
  cbn [lift mbind run_bind final calls app].
  destruct (bindArguments cmd t args) as [argPtr|e] eqn:Hb.
  2:{ left. exists t, e. split; [reflexivity|]. split; [exact Hb|reflexivity]. }
  right.
  destruct (Call_cases (handler cmd) (RValue ContextPtr ctx :: argPtr))
    as [[why Hcall]|(t' & code' & Heq & _ & _ & _ & Hcall)]; rewrite Hcall.
  - left. exists t, argPtr, why. split; [reflexivity|]. split; [exact Hb|reflexivity].
  - right. rewrite Heq in Ht. cbn [TypeOfHandler] in Ht. injection Ht as ->.
    exists t, code', argPtr.
    split; [exact Heq|]. split; [exact Hb|].
    cbn [mbind run_bind final calls List.map rv_val].
    destruct (code' (ctx :: List.map rv_val argPtr)) as [results|why];
      cbn [mbind outcome_bind mret outcome_ret lift final calls app];
      split; reflexivity.
Qed.

(** X6. [Route] reports an unknown command, without entering a handler,
    exactly for the names [HasCommand] denies. *)
Theorem unknown_iff_not_registered (r : CommandRouter) (ctx : value) (command : string)
    (args : list value) :
  HasCommand r command = false
  <-> Route r ctx command args
      = Run [] (Returns (VNil, VError (ErrUnknownCommand command))).
Proof.
  unfold HasCommand, Route. destruct (commands r !! command) as [cmd|] eqn:Hcmd.
  - split.
    + intros Hhas. apply bool_decide_eq_false in Hhas. exfalso. apply Hhas. eauto.
    + intros Hroute. exfalso.
      destruct (invokeHandler_cases ctx cmd args)
        as [(_ & why & Hi)|[(t & e & _ & Hb & Hi)
           |[(t & argPtr & why & _ & _ & Hi)|(t & code & argPtr & _ & _ & Hc & _)]]].
      * rewrite Hi in Hroute. discriminate Hroute.
      * rewrite Hi in Hroute. injection Hroute as ->.
        destruct (bindArguments_error _ _ _ _ Hb) as [[c Hc]|(n & c & Hc)]; discriminate Hc.
      * rewrite Hi in Hroute. discriminate Hroute.
      * rewrite Hroute in Hc. discriminate Hc.
  - split; [reflexivity|]. intros _. apply bool_decide_eq_false_2.
    intros [? ?]. discriminate.
Qed.

(** X7. Registering a command changes nothing for the other names: they
    are routed as before; and the new name is routed to the handler just
    given, with the metadata the options built. *)
Theorem Register_then_Route (r r' : CommandRouter) (name : string) (t : rtype)
    (code : gofunc) (opts : list CommandOption) :
  Register r name (HandlerOf t code) opts = Returns (VNil, r') ->
  (forall ctx args,
      Route r' ctx name args
      = invokeHandler ctx {| metadata := metadataOf name opts;
                             handler := HandlerOf t code;
                             argType := argTypeOf t |} args)
  /\ (forall ctx k args, k <> name -> Route r' ctx k args = Route r ctx k args).
Proof.
  intros Hreg.
  destruct (Register_returns r name _ opts VNil r' Hreg)
    as [(_ & Hname & t' & Heq & _ & ->)|(_ & e & He)]; [|discriminate He].
  injection Heq as <-. split.
  - intros ctx args. unfold Route. cbn [commands]. rewrite lookup_insert_eq. reflexivity.
  - intros ctx k args Hk. unfold Route. cbn [commands].
    rewrite lookup_insert_ne by congruence. reflexivity.
Qed.

(** X8. A panic in the handler's body is not recovered: [Route] panics
    with it. *)
Theorem handler_panic_propagates (r : CommandRouter) (ctx : value) (command : string)
    (args : list value) (cmd : registeredCommand) (t : rtype) (code : gofunc)
    (a : invocation) (why : panicValue) :
  commands r !! command = Some cmd ->
  handler cmd = HandlerOf t code ->
  calls (Route r ctx command args) = [a] ->
  code a = Panics why ->
  final (Route r ctx command args) = Panics why.
Proof.
  intros Hcmd Hh Hcalls Hcode. unfold Route in *. rewrite Hcmd in *.
  destruct (invokeHandler_cases ctx cmd args)
    as [(_ & w & Hi)|[(t' & e & _ & _ & Hi)
       |[(t' & argPtr & w & _ & _ & Hi)|(t' & code' & argPtr & Hh' & _ & Hc & Hf)]]];
    try (rewrite Hi in Hcalls; discriminate Hcalls).
  rewrite Hh in Hh'. injection Hh' as <- <-.
  rewrite Hc in Hcalls. injection Hcalls as <-.
  rewrite Hf, Hcode. reflexivity.
Qed.

(** X9. One call of [Route] enters at most one handler body, at most once,
    and hands it the context first and at most one argument more. *)
Theorem Route_enters_handler_at_most_once (r : CommandRouter) (ctx : value)
    (command : string) (args : list value) :
  calls (Route r ctx command args) = []
  \/ exists rest, calls (Route r ctx command args) = [ctx :: rest]
                  /\ (length rest <= 1)%nat.
Proof.
  unfold Route. destruct (commands r !! command) as [cmd|]; [|left; reflexivity].
  destruct (invokeHandler_cases ctx cmd args)
    as [(_ & w & Hi)|[(t' & e & _ & _ & Hi)
       |[(t' & argPtr & w & _ & _ & Hi)|(t' & code' & argPtr & _ & Hb & Hc & _)]]];
    try (left; rewrite Hi; reflexivity).
  right. exists (List.map rv_val argPtr). split; [exact Hc|].
  rewrite List.length_map. eapply bindArguments_length. exact Hb.
Qed.

(** X10. A command whose handler type takes the context alone is routed
    the same way whatever the raw arguments.  When that input accepts the
    SDK's context, a handler that is a function is entered with the context
    and nothing else, and a handler that is the nil function of the type,
    which [Register] accepts like any other, makes [Route] panic without a
    body being entered. *)
Theorem context_only_command_ignores_args (r : CommandRouter) (ctx : value)
    (command : string) (cmd : registeredCommand) (t : rtype) (c : rtype) :
  commands r !! command = Some cmd ->
  TypeOfHandler (handler cmd) = Returns t ->
  KindOf t = KFunc ->
  ins t = [c] ->
  (forall args args', Route r ctx command args = Route r ctx command args')
  /\ (AssignableTo ContextPtr c = true ->
      forall args,
        (forall code, handler cmd = HandlerOf t code ->
                      calls (Route r ctx command args) = [[ctx]])
        /\ (handler cmd = NilFuncOf t ->
            Route r ctx command args
            = Run [] (Panics "reflect.Value.Call: call of nil function"))).
Proof.
  intros Hcmd Ht Hk Hins.
  assert (Hnum : NumIn t = 1%nat) by (unfold NumIn; rewrite Hins; reflexivity).
  assert (Hbind : forall args, bindArguments cmd t args = Ok []).
  { intros args. unfold bindArguments. rewrite Hnum.
    destruct (argType cmd); reflexivity. }
  split.
  - intros args args'. unfold Route. rewrite Hcmd. unfold invokeHandler.
    rewrite Ht. cbn [lift mbind run_bind final calls app].
    rewrite !Hbind. reflexivity.
  - intros Hc args. unfold Route. rewrite Hcmd. split.
    + intros code Hh.
      destruct (invokeHandler_calls ctx cmd t code args [] Hh (Hbind args)) as [_ Hentered].
      apply Hentered; [exact Hk|rewrite Hnum; reflexivity|lia|].
      rewrite Hins. cbn [assignableAll rv_type]. rewrite Hc. reflexivity.
    + intros Hh. unfold invokeHandler. rewrite Ht.
      cbn [lift mbind run_bind final calls app]. rewrite Hbind, Hh.
      unfold Call. rewrite bool_decide_eq_true_2 by exact Hk. reflexivity.
Qed.

Lemma decode_object_mismatch (ms : list (string * json)) (t : rtype) :
  takesObject t = false ->
  forall cur, exists t', decode (JObject ms) t cur = Err (UnmarshalTypeError "object" t').
Proof.
  induction t; cbn [takesObject]; intros Ht cur; try discriminate Ht;
    try (eexists; reflexivity).
  - destruct (IHt Ht (match cur with VPtr (Some c) => c | _ => zero t end)) as [t' Ht'].
    exists t'. cbn [decode] in *. rewrite Ht'. reflexivity.
  - destruct (IHt Ht cur) as [t' Ht']. exists t'. cbn [decode] in *. exact Ht'.
Qed.

(** X11. A command whose argument type cannot take a JSON object (a bool,
    an int, a float64, a string, a slice, ...) cannot be given arguments: the
    source object is a map whatever the raw values are, so unless its first
    raw value is a nil map, routing it with any argument returns a marshal
    error or the mismatch of an object with the argument type, and the
    handler's body is not entered. *)
Theorem scalar_shape_rejects_arguments (r : CommandRouter) (ctx : value)
    (command : string) (cmd : registeredCommand) (t : rtype) (code : gofunc)
    (argT : rtype) (first : value) (rest : list value) :
  commands r !! command = Some cmd ->
  handler cmd = HandlerOf t code ->
  argType cmd = Some argT ->
  NumIn t = 2%nat ->
  takesObject argT = false ->
  first <> VNilMap ->
  exists e,
    Route r ctx command (first :: rest) = Run [] (Returns (VNil, VError e))
    /\ ((exists c, e = ErrMarshal c)
        \/ exists t', e = ErrUnmarshal (Name argT) (UnmarshalTypeError "object" t')).
Proof.
  intros Hcmd Hh Harg Hnum Hobj Hfirst.
  unfold Route. rewrite Hcmd. unfold invokeHandler. rewrite Hh.
  cbn [TypeOfHandler lift mbind run_bind final calls app].
  unfold bindArguments. rewrite Harg, Hnum. cbn [Nat.eqb length Nat.ltb Nat.leb].
  assert (Hsrc : exists m, bindSource (mParameters (metadata cmd)) (first :: rest) = VMap m).
  { unfold bindSource. destruct first; try (eexists; reflexivity). contradiction. }
  destruct Hsrc as [m ->]. rewrite marshal_map.
  destruct (marshalEntries m) as [ms|c]; cbn [mbind result_bind].
  - unfold unmarshal.
    destruct (decode_object_mismatch
                (List.map (fun kj => (toValidUTF8 (fst kj), snd kj)) (sortKeys ms))
                argT Hobj (zero argT)) as [t' ->].
    eexists. split; [reflexivity|]. right. eauto.
  - eexists. split; [reflexivity|]. left. eauto.
Qed.

End routing_extras.


(** ** command.go: options *)

Lemma commandOptions_fold (specs : list optionSpec) : forall m,
  fold_left (fun m (opt : CommandOption) => opt m) (List.map commandOption specs) m
  = {| mName := mName m;
       mDescription := lastPick pickDescription specs (mDescription m);
       mParameters := lastPick pickParameters specs (mParameters m);
       mReturnType := lastPick pickReturnType specs (mReturnType m);
       mExamples := lastPick pickExamples specs (mExamples m) |}.
Proof.
  induction specs as [|s specs IH]; intros m.
  - destruct m; reflexivity.
  - cbn [List.map fold_left lastPick]. rewrite IH. destruct s; reflexivity.
Qed.

Lemma paramOptions_fold (specs : list paramSpec) : forall p,
  fold_left (fun p (opt : ParamOption) => opt p) (List.map paramOption specs) p
  = {| pName := pName p; pType := pType p; pDescription := pDescription p;
       pRequired := lastPick pickRequired specs (pRequired p);
       pDefault := lastPick pickDefault specs (pDefault p) |}.
Proof.
  induction specs as [|s specs IH]; intros p.
  - destruct p; reflexivity.
  - cbn [List.map fold_left lastPick]. rewrite IH. destruct s; reflexivity.
Qed.

(** X12. The options of command.go never touch the name, and for each
    other field of the metadata the last option that sets it wins, whatever
    stands between. *)
Theorem options_last_writer_wins (name : string) (specs : list optionSpec) :
  metadataOf name (List.map commandOption specs)
  = {| mName := name;
       mDescription := lastPick pickDescription specs "";
       mParameters := lastPick pickParameters specs [];
       mReturnType := lastPick pickReturnType specs None;
       mExamples := lastPick pickExamples specs [] |}.
Proof.
  unfold metadataOf. rewrite commandOptions_fold. reflexivity.
Qed.

(** X13. [Param] is required unless an option says otherwise; the last of
    [Required], [Optional] and [Default] decides, and a default once given
    stays, also when a later [Required] makes the parameter required again. *)
Theorem Param_options (name : string) (ty : ParamType) (desc : string)
    (specs : list paramSpec) :
  Param name ty desc (List.map paramOption specs)
  = {| pName := name; pType := ty; pDescription := desc;
       pRequired := lastPick pickRequired specs true;
       pDefault := lastPick pickDefault specs VNil |}.
Proof.
  unfold Param. rewrite paramOptions_fold. reflexivity.
Qed.

(** ** BasePlugin *)

Section plugin_extras.
Context `{Unicode}.

Lemma GetCommands_new : GetCommands NewCommandRouter = [].
Proof.
  unfold GetCommands, NewCommandRouter. cbn [commands].
  rewrite map_to_list_empty. reflexivity.
Qed.

(** X14. A zero-valued [BasePlugin{}] cannot be told from
    [NewBasePlugin()]: every sequence of calls of its methods returns the
    same on both. *)
Theorem zero_plugin_behaves_as_new (ops : list Plugin.operation) :
  Plugin.observe {| Plugin.router := None |} ops
  = Plugin.observe Plugin.NewBasePlugin ops.
Proof.
  unfold Plugin.NewBasePlugin. induction ops as [|op ops IH]; [reflexivity|].
  destruct op as [name h opts|ctx command args|].
  - reflexivity.
  - reflexivity.
  - cbn [Plugin.observe Plugin.step fst snd]. rewrite IH.
    unfold Plugin.GetCommands. cbn [Plugin.router].
    rewrite GetCommands_new. reflexivity.
Qed.

(** X15. A command registered through the plugin is the one
    [ExecuteCommand] runs under that name, it is listed by [GetCommands], and
    executing a command leaves the plugin as it was. *)
Theorem RegisterCommand_then_ExecuteCommand (p p' : Plugin.BasePlugin) (name : string)
    (t : rtype) (code : gofunc) (opts : list CommandOption) :
  Plugin.RegisterCommand p name (HandlerOf t code) opts = (Returns VNil, p') ->
  (forall ctx args,
      Plugin.ExecuteCommand p' ctx name args
      = (invokeHandler ctx {| metadata := metadataOf name opts;
                              handler := HandlerOf t code;
                              argType := argTypeOf t |} args, p'))
  /\ metadataOf name opts ∈ Plugin.GetCommands p'.
Proof.
  unfold Plugin.RegisterCommand. intros Hreg.
  set (r := match Plugin.router p with Some r => r | None => NewCommandRouter end) in *.
  destruct (Register r name (HandlerOf t code) opts) as [[err r']|why] eqn:HR;
    [|discriminate Hreg].
  injection Hreg as -> <-.
  destruct (Register_returns r name _ opts VNil r' HR)
    as [(_ & Hname & t' & Heq & _ & ->)|(_ & e & He)]; [|discriminate He].
  injection Heq as <-. split.
  - intros ctx args. unfold Plugin.ExecuteCommand, Route. cbn [Plugin.router commands].
    rewrite lookup_insert_eq. reflexivity.
  - unfold Plugin.GetCommands, GetCommands. cbn [Plugin.router commands].
    apply list_elem_of_fmap.
    exists (name, {| metadata := metadataOf name opts; handler := HandlerOf t code;
                     argType := argTypeOf t |}).
    split; [reflexivity|]. apply elem_of_map_to_list. apply lookup_insert_eq.
Qed.

End plugin_extras.

(** ** The configuration accessor *)

(** X16. A key the accessor does not have -- also on a nil accessor or a
    nil map -- reads as nil, and the typed getters fall back to the default
    given, or to the zero value when none is. *)
Theorem Config_missing_key (c : option ConfigAccessor) (key : string) :
  ConfigHas c key = false ->
  ConfigGet c key = VNil
  /\ (forall d, ConfigGetString c key d = match d with x :: _ => x | [] => "" end)
  /\ (forall d, ConfigGetBool c key d = match d with x :: _ => x | [] => false end).
Proof.
  intros Hhas.
  assert (Hget : ConfigGet c key = VNil).
  { unfold ConfigHas, ConfigGet in *. destruct c as [c|]; [|reflexivity].
    destruct (data c) as [m|]; [|reflexivity].
    destruct (map_get m key); [discriminate Hhas|reflexivity]. }
  split; [exact Hget|].
  unfold ConfigGetString, ConfigGetBool. rewrite Hget. split; reflexivity.
Qed.

(** X17. What is stored under a key is what the accessor reads there, the
    other keys read as before; a typed getter returns the stored value when
    it has the getter's type and the default otherwise, without an error. *)
Theorem Config_set_then_get (m : list (string * value)) (key : string) (v : value) :
  let c := NewConfigAccessor (Some (map_set m key v)) in
  ConfigHas c key = true
  /\ ConfigGet c key = v
  /\ (forall s ds db, v = VString s ->
        ConfigGetString c key ds = s
        /\ ConfigGetBool c key db = match db with x :: _ => x | [] => false end)
  /\ (forall b ds db, v = VBool b ->
        ConfigGetBool c key db = b
        /\ ConfigGetString c key ds = match ds with x :: _ => x | [] => "" end)
  /\ (forall k, k <> key ->
        ConfigGet c k = ConfigGet (NewConfigAccessor (Some m)) k
        /\ ConfigHas c k = ConfigHas (NewConfigAccessor (Some m)) k).
Proof.
  intros c. subst c.
  assert (Hget : ConfigGet (NewConfigAccessor (Some (map_set m key v))) key = v).
  { unfold ConfigGet, NewConfigAccessor. cbn [data].
    rewrite map_get_set, String.eqb_refl. reflexivity. }
  split.
  { unfold ConfigHas, NewConfigAccessor. cbn [data].
    rewrite map_get_set, String.eqb_refl. reflexivity. }
  split; [exact Hget|]. split.
  { intros s ds db ->. unfold ConfigGetString, ConfigGetBool. rewrite Hget.
    split; reflexivity. }
  split.
  { intros b ds db ->. unfold ConfigGetString, ConfigGetBool. rewrite Hget.
    split; reflexivity. }
  intros k Hk. unfold ConfigGet, ConfigHas, NewConfigAccessor. cbn [data].
  rewrite map_get_set.
  destruct (String.eqb k key) eqn:E; [apply String.eqb_eq in E; contradiction|].
  split; reflexivity.
Qed.

(** ** The fields of a log request *)

Section log_extras.
Context `{Formatter}.

Lemma toStringMapLoop_pairs (rounds : nat) : forall pre rest result,
  (length rest <= rounds)%nat ->
  toStringMapLoop rounds (length pre) (pre ++ rest) result
  = insertAll (pairsOf rest) result.
Proof.
  induction rounds as [|rounds IH]; intros pre rest result Hr.
  - destruct rest; [reflexivity|cbn in Hr; lia].
  - cbn [toStringMapLoop]. rewrite length_app.
    destruct rest as [|k [|v rest]].
    + cbn [length]. replace (length pre <? length pre + 0 - 1)%nat with false
        by (symmetry; apply Nat.ltb_ge; lia). reflexivity.
    + cbn [length]. replace (length pre <? length pre + 1 - 1)%nat with false
        by (symmetry; apply Nat.ltb_ge; lia). reflexivity.
    + cbn [length]. replace (length pre <? length pre + S (S (length rest)) - 1)%nat
        with true by (symmetry; apply Nat.ltb_lt; lia).
      replace (nth (length pre) (pre ++ k :: v :: rest) VNil) with k
        by (rewrite app_nth2, Nat.sub_diag by lia; reflexivity).
      replace (nth (length pre + 1) (pre ++ k :: v :: rest) VNil) with v
        by (rewrite app_nth2 by lia;
            replace (length pre + 1 - length pre)%nat with 1%nat by lia; reflexivity).
      specialize (IH (pre ++ [k; v])%list rest
                     (<[keyString k := formatV v]> result)).
      rewrite length_app in IH. cbn [length] in IH.
      rewrite <- app_assoc in IH. cbn [app] in IH.
      rewrite IH by (cbn in Hr; lia). reflexivity.
Qed.

Lemma insertAll_list_to_map (pairs : list (string * string)) :
  insertAll pairs ∅ = list_to_map (rev pairs).
Proof.
  unfold insertAll.
  assert (Hgen : forall acc : list (string * string),
    fold_left (fun acc kv => <[fst kv := snd kv]> acc) pairs (list_to_map acc)
    = (list_to_map (rev pairs ++ acc) : gmap string string)).
  { induction pairs as [|[k v] pairs IH]; intros acc; [reflexivity|].
    cbn [fold_left fst snd rev]. rewrite <- app_assoc. cbn [app].
    rewrite <- IH. reflexivity. }
  specialize (Hgen []). rewrite app_nil_r in Hgen. exact Hgen.
Qed.

Lemma insertAll_nonempty (pairs : list (string * string)) (result : gmap string string) :
  pairs <> [] -> insertAll pairs result <> ∅.
Proof.
  revert result. induction pairs as [|[k v] pairs IH]; intros result Hp; [contradiction|].
  unfold insertAll. cbn [fold_left fst snd].
  destruct pairs as [|kv pairs].
  - cbn [fold_left]. apply insert_non_empty.
  - apply IH. discriminate.
Qed.

Lemma toStringMap_pairs (kvs : list value) :
  toStringMap kvs
  = match pairsOf kvs with
    | [] => None
    | pairs => Some (list_to_map (rev pairs))
    end.
Proof.
  unfold toStringMap.
  pose proof (toStringMapLoop_pairs (length kvs) [] kvs ∅ (le_n _)) as Hloop.
  cbn [length app] in Hloop. rewrite Hloop.
  destruct kvs as [|k [|v rest]]; [reflexivity|reflexivity|].
  cbn [length Nat.eqb pairsOf].
  set (pairs := (keyString k, formatV v) :: pairsOf rest).
  assert (Hne : insertAll pairs ∅ <> ∅) by (apply insertAll_nonempty; discriminate).
  apply map_size_non_empty_iff in Hne.
  destruct (size (insertAll pairs ∅) =? 0)%nat eqn:E;
    [apply Nat.eqb_eq in E; contradiction|].
  rewrite insertAll_list_to_map. reflexivity.
Qed.

(** X18. [toStringMap] returns nil exactly when it is given fewer than two
    values: no pair, no map. *)
Theorem toStringMap_nil_iff (kvs : list value) :
  toStringMap kvs = None <-> (length kvs < 2)%nat.
Proof.
  rewrite toStringMap_pairs.
  destruct kvs as [|k [|v rest]]; cbn [pairsOf length].
  - split; [lia|reflexivity].
  - split; [lia|reflexivity].
  - split; [discriminate|lia].
Qed.

(** X19. Given at least two values, [toStringMap] returns the map of the
    pairs read two by two, keys that are strings kept as they are and
    everything else formatted; of two pairs with the same key the later one
    wins. *)
Theorem toStringMap_pairs_last_wins (kvs : list value) :
  (2 <= length kvs)%nat ->
  toStringMap kvs = Some (list_to_map (rev (pairsOf kvs))).
Proof.
  intros Hlen. rewrite toStringMap_pairs.
  destruct kvs as [|k [|v rest]]; cbn [length] in Hlen; [lia|lia|reflexivity].
Qed.

Lemma list_pair_ind {A} (P : list A -> Prop) :
  P [] -> (forall x, P [x]) -> (forall x y l, P l -> P (x :: y :: l)) ->
  forall l, P l.
Proof.
  intros Hnil Hone Hstep l.
  assert (Hboth : P l /\ forall x, P (x :: l)).
  { induction l as [|y l [IH1 IH2]]; [split; auto|].
    split; [apply IH2|]. intros x. apply Hstep. exact IH1. }
  exact (proj1 Hboth).
Qed.

Lemma pairsOf_dangling (kvs : list value) (x : value) :
  Nat.Even (length kvs) -> pairsOf (kvs ++ [x]) = pairsOf kvs.
Proof.
  induction kvs as [|k|k v rest IH] using list_pair_ind; intros Hev.
  - reflexivity.
  - destruct Hev as [n Hn]. cbn in Hn. lia.
  - cbn [app pairsOf]. rewrite IH; [reflexivity|].
    destruct Hev as [n Hn]. cbn [length] in Hn. exists (n - 1)%nat. lia.
Qed.

(** X20. A key without a value at the end of the arguments is dropped
    silently. *)
Theorem toStringMap_drops_dangling_key (kvs : list value) (x : value) :
  Nat.Even (length kvs) -> toStringMap (kvs ++ [x]) = toStringMap kvs.
Proof.
  intros Hev. rewrite !toStringMap_pairs, pairsOf_dangling by exact Hev. reflexivity.
Qed.

End log_extras.

Lemma mergeInto_union (merged f : gmap string string) : mergeInto merged f = f ∪ merged.
Proof.
  unfold mergeInto.
  apply (map_fold_weak_ind (fun r m => r = m ∪ merged)).
  - rewrite (left_id_L ∅ (∪)). reflexivity.
  - intros i x m r _ ->. rewrite insert_union_l. reflexivity.
Qed.

Lemma map_union_list_app (l1 l2 : list (gmap string string)) :
  union_list (l1 ++ l2) = union_list l1 ∪ union_list l2.
Proof.
  induction l1 as [|m l1 IH]; cbn [app union_list foldr].
  - rewrite (left_id_L ∅ (∪)). reflexivity.
  - fold (union_list (l1 ++ l2)). fold (union_list l1).
    rewrite IH, (assoc_L (∪)). reflexivity.
Qed.

Lemma map_union_list_empty (l : list (gmap string string)) :
  union_list l = ∅ <-> Forall (fun f => f = ∅) l.
Proof.
  induction l as [|m l IH]; cbn [union_list foldr].
  - split; [constructor|reflexivity].
  - fold (union_list l). split.
    + intros Hu. pose proof (map_positive_l _ _ Hu) as Hm. constructor.
      * exact Hm.
      * apply IH. rewrite Hm, (left_id_L ∅ (∪)) in Hu. exact Hu.
    + intros Hall. inversion Hall as [|? ? Hm Hl]; subst.
      apply IH in Hl. rewrite Hl, (left_id_L ∅ (∪)). reflexivity.
Qed.

Lemma merge_all_union (fields : list (gmap string string)) : forall acc,
  fold_left mergeInto fields acc = union_list (rev fields) ∪ acc.
Proof.
  induction fields as [|f fields IH]; intros acc.
  - cbn. rewrite (left_id_L ∅ (∪)). reflexivity.
  - cbn [fold_left rev]. rewrite IH, mergeInto_union, map_union_list_app.
    cbn [union_list foldr]. rewrite (right_id_L ∅ (∪)), (assoc_L (∪)). reflexivity.
Qed.

(** X21. [mergeFields] returns the union of the maps it is given, a later
    map winning on a key it shares with an earlier one, and nil instead of an
    empty map: nil exactly when every map given is empty or nil. *)
Theorem mergeFields_union (fields : list (gmap string string)) :
  asMap (mergeFields fields) = union_list (rev fields)
  /\ (mergeFields fields = None <-> Forall (fun f => f = ∅) fields).
Proof.
  unfold mergeFields. destruct fields as [|f fields].
  - split; [reflexivity|]. split; [constructor|reflexivity].
  - cbn [length Nat.eqb]. rewrite merge_all_union, (right_id_L ∅ (∪)).
    destruct (size (union_list (rev (f :: fields))) =? 0)%nat eqn:E.
    + apply Nat.eqb_eq, map_size_empty_iff in E. split; [symmetry; exact E|].
      split; [|reflexivity]. intros _.
      apply map_union_list_empty in E. apply Forall_rev in E.
      rewrite rev_involutive in E. exact E.
    + split; [reflexivity|]. split; [discriminate|]. intros Hall.
      apply Nat.eqb_neq in E. exfalso. apply E. apply map_size_empty_iff.
      apply map_union_list_empty. apply Forall_rev. exact Hall.
Qed.

(** X22. The fields of the log request sent for [ContextLogger.Info] are the
    map [toStringMap] made: going through [Logger.Info] and [mergeFields]
    changes nothing, a nil map stays nil. *)
Theorem log_fields_pass_through `{Formatter} (keysAndValues : list value) :
  requestFields keysAndValues = toStringMap keysAndValues.
Proof.
  unfold requestFields, mergeFields. cbn [length Nat.eqb fold_left].
  rewrite mergeInto_union, (right_id_L ∅ (∪)).
  rewrite toStringMap_pairs. destruct (pairsOf keysAndValues) as [|kv pairs] eqn:Hp.
  - reflexivity.
  - cbn [asMap].
    assert (Hne : (list_to_map (rev (kv :: pairs)) : gmap string string) <> ∅).
    { rewrite <- insertAll_list_to_map. apply insertAll_nonempty. discriminate. }
    apply map_size_non_empty_iff in Hne.
    destruct (size _ =? 0)%nat eqn:E; [apply Nat.eqb_eq in E; contradiction|reflexivity].
Qed.


Section nil_map.
Context `{Unicode}.

Lemma decode_null_zero (t : rtype) : decode JNull t (zero t) = Ok (zero t).
Proof.
  induction t; try reflexivity.
  cbn [decode zero] in *. exact IHt.
Qed.

(** X23. A nil map as first raw value counts for nothing: the call goes as
    the call without arguments does, whatever follows the nil map. *)
Theorem nil_map_argument_is_no_argument (r : CommandRouter) (ctx : value)
    (command : string) (rest : list value) :
  Route r ctx command (VNilMap :: rest) = Route r ctx command [].
Proof.
  unfold Route. destruct (commands r !! command) as [cmd|]; [|reflexivity].
  unfold invokeHandler. destruct (TypeOfHandler (handler cmd)) as [t|why]; [|reflexivity].
  cbn [lift mbind run_bind final calls app].
  assert (Hbind : bindArguments cmd t (VNilMap :: rest) = bindArguments cmd t []).
  { unfold bindArguments. destruct (argType cmd) as [argT|]; [|reflexivity].
    destruct (NumIn t =? 2)%nat; [|reflexivity].
    cbn [length Nat.ltb Nat.leb bindSource marshal].
    unfold unmarshal. rewrite decode_null_zero. reflexivity. }
  rewrite Hbind. reflexivity.
Qed.

End nil_map.

Lemma Register_accepts_exactly_witness :
  commands oneCommand !! "echo" = None
  /\ (accepted (Register oneCommand "echo" echoHandler []) = true
      <-> validSignature (TFunc [ContextPtr; TPtr ArgsType] [TInterface; TError])).
Proof.
  split; [vm_compute; reflexivity|].
  apply (Register_accepts_exactly oneCommand "echo" _ echo []).
  vm_compute. reflexivity.
Defined.

Lemma Register_effect_witness :
  Register NewCommandRouter "ping" firstHandler [] = Returns (VNil, oneCommand)
  /\ HasCommand NewCommandRouter "ping" = false
  /\ HasCommand oneCommand "ping" = true
  /\ CommandCount oneCommand = 1%nat.
Proof.
  assert (Hreg : Register NewCommandRouter "ping" firstHandler []
                 = Returns (VNil, oneCommand)) by (vm_compute; reflexivity).
  destruct (Register_effect _ _ _ _ _ _ Hreg) as [Hok _].
  destruct (Hok eq_refl) as (Hfree & Hhas & Hcount & _).
  split; [exact Hreg|]. split; [exact Hfree|]. split; [exact Hhas|].
  rewrite Hcount. reflexivity.
Defined.

Lemma registered_commands_valid_witness :
  commands (fold_left perform
              [OpRegister "ping" firstHandler []; OpRegister "ping" secondHandler []]
              NewCommandRouter) !! "ping"
  = Some {| metadata := metadataOf "ping" []; handler := firstHandler; argType := None |}
  /\ wellRegistered
       {| metadata := metadataOf "ping" []; handler := firstHandler; argType := None |}.
Proof.
  assert (Hcmd : commands (fold_left perform
              [OpRegister "ping" firstHandler []; OpRegister "ping" secondHandler []]
              NewCommandRouter) !! "ping"
            = Some {| metadata := metadataOf "ping" []; handler := firstHandler;
                      argType := None |}) by (vm_compute; reflexivity).
  split; [exact Hcmd|].
  exact (registered_commands_valid _ _ _ Hcmd).
Defined.

Lemma Register_then_Route_witness :
  Register NewCommandRouter "ping" firstHandler [] = Returns (VNil, oneCommand)
  /\ @Route asciiUnicode oneCommand someContext "ping" []
     = @invokeHandler asciiUnicode someContext
         {| metadata := metadataOf "ping" []; handler := firstHandler; argType := None |} []
  /\ @Route asciiUnicode oneCommand someContext "pong" []
     = @Route asciiUnicode NewCommandRouter someContext "pong" [].
Proof.
  assert (Hreg : Register NewCommandRouter "ping" firstHandler []
                 = Returns (VNil, oneCommand)) by (vm_compute; reflexivity).
  destruct (@Register_then_Route asciiUnicode _ _ _ _ _ _ Hreg) as [Hnew Hold].
  split; [exact Hreg|]. split; [apply Hnew|]. apply Hold. discriminate.
Defined.

Lemma handler_panic_propagates_witness :
  commands panickingRouter !! "boom"
  = Some {| metadata := metadataOf "boom" []; handler := panickingHandler; argType := None |}
  /\ calls (@Route asciiUnicode panickingRouter someContext "boom" []) = [[someContext]]
  /\ final (@Route asciiUnicode panickingRouter someContext "boom" []) = Panics "boom".
Proof.
  assert (Hcmd : commands panickingRouter !! "boom"
                 = Some {| metadata := metadataOf "boom" []; handler := panickingHandler;
                           argType := None |}) by (vm_compute; reflexivity).
  assert (Hcalls : calls (@Route asciiUnicode panickingRouter someContext "boom" [])
                   = [[someContext]]) by (vm_compute; reflexivity).
  split; [exact Hcmd|]. split; [exact Hcalls|].
  exact (@handler_panic_propagates asciiUnicode panickingRouter someContext "boom" [] _
           (TFunc [ContextPtr] [TInterface; TError]) (fun _ => Panics "boom")
           [someContext] "boom" Hcmd eq_refl Hcalls eq_refl).
Defined.

Lemma context_only_command_ignores_args_witness :
  commands oneCommand !! "ping"
  = Some {| metadata := metadataOf "ping" []; handler := firstHandler; argType := None |}
  /\ @Route asciiUnicode oneCommand someContext "ping" [VInt 1; VString "more"]
     = @Route asciiUnicode oneCommand someContext "ping" []
  /\ calls (@Route asciiUnicode oneCommand someContext "ping" [VInt 1]) = [[someContext]].
Proof.
  assert (Hcmd : commands oneCommand !! "ping"
                 = Some {| metadata := metadataOf "ping" []; handler := firstHandler;
                           argType := None |}) by (vm_compute; reflexivity).
  destruct (@context_only_command_ignores_args asciiUnicode oneCommand someContext "ping" _
              (TFunc [ContextPtr] [TInterface; TError]) ContextPtr
              Hcmd eq_refl eq_refl eq_refl) as [Hsame Hcalls].
  split; [exact Hcmd|]. split; [apply Hsame|].
  destruct (Hcalls eq_refl [VInt 1]) as [Hentered _]. apply (Hentered noop). reflexivity.
Defined.

(** A nil function is registered like any other handler of its type, and
    routing to it panics. *)
Example nil_function_registered_then_panics :
  Register NewCommandRouter "later" nilFunction [] = Returns (VNil, nilFunctionRouter)
  /\ HasCommand nilFunctionRouter "later" = true
  /\ @Route asciiUnicode nilFunctionRouter someContext "later" []
     = Run [] (Panics "reflect.Value.Call: call of nil function").
Proof. vm_compute. repeat split; reflexivity. Qed.

Lemma scalar_shape_rejects_arguments_witness :
  commands stringRouter !! "name" = Some stringCommand
  /\ takesObject TString = false
  /\ exists e,
       @Route asciiUnicode stringRouter someContext "name" [VString "Ann"]
       = Run [] (Returns (VNil, VError e))
       /\ ((exists c, e = ErrMarshal c)
           \/ exists t', e = ErrUnmarshal (Name TString) (UnmarshalTypeError "object" t')).
Proof.
  assert (Hcmd : commands stringRouter !! "name" = Some stringCommand)
    by (vm_compute; reflexivity).
  split; [exact Hcmd|]. split; [reflexivity|].
  apply (@scalar_shape_rejects_arguments asciiUnicode stringRouter someContext "name"
           stringCommand (TFunc [ContextPtr; TPtr TString] [TInterface; TError]) echo
           TString (VString "Ann") [] Hcmd eq_refl eq_refl eq_refl eq_refl).
  discriminate.
Defined.

Lemma RegisterCommand_then_ExecuteCommand_witness :
  Plugin.RegisterCommand {| Plugin.router := None |} "ping" firstHandler []
  = (Returns VNil, {| Plugin.router := Some oneCommand |})
  /\ @Plugin.ExecuteCommand asciiUnicode {| Plugin.router := Some oneCommand |}
       someContext "ping" []
     = (@invokeHandler asciiUnicode someContext
          {| metadata := metadataOf "ping" []; handler := firstHandler; argType := None |} [],
        {| Plugin.router := Some oneCommand |})
  /\ metadataOf "ping" [] ∈ Plugin.GetCommands {| Plugin.router := Some oneCommand |}.
Proof.
  assert (Hreg : Plugin.RegisterCommand {| Plugin.router := None |} "ping" firstHandler []
                 = (Returns VNil, {| Plugin.router := Some oneCommand |}))
    by (vm_compute; reflexivity).
  destruct (@RegisterCommand_then_ExecuteCommand asciiUnicode _ _ _ _ _ _ Hreg)
    as [Hexec Hlist].
  split; [exact Hreg|]. split; [apply Hexec|exact Hlist].
Defined.

Lemma Config_missing_key_witness :
  ConfigHas (NewConfigAccessor (Some [("debug", VBool true)])) "name" = false
  /\ ConfigGet (NewConfigAccessor (Some [("debug", VBool true)])) "name" = VNil
  /\ ConfigGetString (NewConfigAccessor (Some [("debug", VBool true)])) "name" ["anon"]
     = "anon"
  /\ ConfigGetBool None "debug" [] = false.
Proof.
  destruct (Config_missing_key (NewConfigAccessor (Some [("debug", VBool true)])) "name"
              eq_refl) as (Hget & Hstr & _).
  destruct (Config_missing_key None "debug" eq_refl) as (_ & _ & Hbool).
  split; [reflexivity|]. split; [exact Hget|]. split; [apply (Hstr ["anon"])|apply (Hbool [])].
Defined.

Lemma toStringMap_pairs_last_wins_witness :
  (2 <= length [VString "k"; VBool true; VString "k"; VString "v"; VString "odd"])%nat
  /\ asMap (@toStringMap asciiFormatter
              [VString "k"; VBool true; VString "k"; VString "v"; VString "odd"]) !! "k"
     = Some "v".
Proof.
  split; [cbn; lia|].
  rewrite (@toStringMap_pairs_last_wins asciiFormatter) by (cbn; lia).
  vm_compute. reflexivity.
Defined.

Lemma toStringMap_drops_dangling_key_witness :
  Nat.Even (length [VString "k"; VString "v"])
  /\ @toStringMap asciiFormatter ([VString "k"; VString "v"] ++ [VString "dangling"])
     = @toStringMap asciiFormatter [VString "k"; VString "v"].
Proof.
  assert (Hev : Nat.Even (length [VString "k"; VString "v"])) by (exists 1%nat; reflexivity).
  split; [exact Hev|].
  exact (@toStringMap_drops_dangling_key asciiFormatter _ _ Hev).
Defined.

